(** * Enrollment engine of the Ziti Go SDK: [ziti/enroll/enroll.go]

    A shallow embedding of [ValidateToken], [FetchServerCert],
    [FetchCertificates], the three enrollment strategies ([enrollOTT],
    [enrollCA], [enrollCAAuto]) and the orchestrator [Enroll], followed by
    the properties of the enrollment specification that concern them.

    Go code is effectful: it reads files, draws randomness and talks to the
    network.  The embedding makes every such capability a field of a
    [World]; an effectful capability answers as a function of the history of
    events performed so far, so that two calls of the same operation may be
    answered differently (the second POST of a retried strategy, say).  A
    computation reads the history and yields an outcome together with the
    events it performed itself.  Go panics are an outcome of their own. *)

From Stdlib Require Import String Ascii List ZArith Bool Lia.
Import ListNotations.
Open Scope string_scope.
Open Scope list_scope.
Set Warnings "-register-all".

(** Go's [+] on strings and the joints of [fmt] verbs. *)
Infix "+++" := String.append (right associativity, at level 60).

(** ** Strings *)

(** [strings.TrimSpace]: the text without the white space at its two ends,
    white space being what [unicode.IsSpace] says.  A Go string is a
    sequence of bytes and the runes are read off its UTF-8: the white space
    runes are tab, line feed, vertical tab, form feed, carriage return and
    space (one byte each); U+0085 and U+00A0 (two bytes, [C2 85] and
    [C2 A0]); U+1680 ([E1 9A 80]), U+2000 to U+200A ([E2 80 80] to
    [E2 80 8A]), U+2028, U+2029, U+202F ([E2 80 A8], [E2 80 A9],
    [E2 80 AF]), U+205F ([E2 81 9F]) and U+3000 ([E3 80 80]) (three bytes).
    A byte that starts no such encoding is no white space, so the trimming
    stops at it. *)
Definition isSpace (c : ascii) : bool :=
  let n := nat_of_ascii c in
  (Nat.eqb n 9 || Nat.eqb n 10 || Nat.eqb n 11 || Nat.eqb n 12
   || Nat.eqb n 13 || Nat.eqb n 32)%bool.

Definition isSpace2 (c1 c2 : ascii) : bool :=
  let b1 := nat_of_ascii c1 in
  let b2 := nat_of_ascii c2 in
  (Nat.eqb b1 194 && (Nat.eqb b2 133 || Nat.eqb b2 160))%bool.

Definition isSpace3 (c1 c2 c3 : ascii) : bool :=
  let b1 := nat_of_ascii c1 in
  let b2 := nat_of_ascii c2 in
  let b3 := nat_of_ascii c3 in
  ((Nat.eqb b1 225 && Nat.eqb b2 154 && Nat.eqb b3 128)
   || (Nat.eqb b1 226 && Nat.eqb b2 128
       && ((Nat.leb 128 b3 && Nat.leb b3 138)
           || Nat.eqb b3 168 || Nat.eqb b3 169 || Nat.eqb b3 175))
   || (Nat.eqb b1 226 && Nat.eqb b2 129 && Nat.eqb b3 159)
   || (Nat.eqb b1 227 && Nat.eqb b2 128 && Nat.eqb b3 128))%bool.

Fixpoint trimLeft (s : string) : string :=
  match s with
  | EmptyString => EmptyString
  | String c1 s1 =>
      if isSpace c1 then trimLeft s1
      else
        match s1 with
        | EmptyString => s
        | String c2 s2 =>
            if isSpace2 c1 c2 then trimLeft s2
            else
              match s2 with
              | EmptyString => s
              | String c3 s3 =>
                  if isSpace3 c1 c2 c3 then trimLeft s3 else s
              end
        end
  end.

Fixpoint revOnto (s acc : string) : string :=
  match s with
  | EmptyString => acc
  | String c s' => revOnto s' (String c acc)
  end.

Definition revString (s : string) : string := revOnto s EmptyString.

(** [trimLeft] on the text read backwards: the last byte comes first. *)
Fixpoint trimLeftRev (s : string) : string :=
  match s with
  | EmptyString => EmptyString
  | String c3 s1 =>
      if isSpace c3 then trimLeftRev s1
      else
        match s1 with
        | EmptyString => s
        | String c2 s2 =>
            if isSpace2 c2 c3 then trimLeftRev s2
            else
              match s2 with
              | EmptyString => s
              | String c1 s3 =>
                  if isSpace3 c1 c2 c3 then trimLeftRev s3 else s
              end
        end
  end.

Definition trimRight (s : string) : string :=
  revString (trimLeftRev (revString s)).

Definition TrimSpace (s : string) : string := trimRight (trimLeft s).

Definition isEmpty (s : string) : bool :=
  match s with EmptyString => true | _ => false end.

(** The double quote character, for [%q] and for JSON text. *)
Definition dq : string := String (ascii_of_nat 34) EmptyString.

(** ** Errors

    Go's [error] is an interface; the code tells its dynamic types apart
    with type assertions (of [enrollErr] to a pointer to [url.Error], of
    its [Err] to [x509.UnknownAuthorityError]) and with [os.IsNotExist]. *)
Inductive error : Type :=
| UrlError (Op URL : string) (Err : error)   (* pointer to url.Error *)
| UnknownAuthorityError                      (* x509.UnknownAuthorityError *)
| ErrNotExist (Op Path : string)             (* os.PathError over ENOENT *)
| Fundamental (msg : string)                 (* pkg/errors: New, Errorf *)
| OtherError (msg : string).                 (* any other library error *)

(** [err.Error()]. *)
Fixpoint Error (e : error) : string :=
  match e with
  | UrlError op u inner => op +++ " " +++ dq +++ u +++ dq +++ ": " +++ Error inner
  | UnknownAuthorityError => "x509: certificate signed by unknown authority"
  | ErrNotExist op p => op +++ " " +++ p +++ ": no such file or directory"
  | Fundamental m => m
  | OtherError m => m
  end.

(** [%s] applied to an [error] value that may be nil. *)
Definition fmtErr (e : option error) : string :=
  match e with
  | Some e => Error e
  | None => "%!s(<nil>)"
  end.

Definition IsNotExist (e : option error) : bool :=
  match e with
  | Some (ErrNotExist _ _) => true
  | _ => false
  end.

(** A Go call returning [(T, error)] whose error the caller tests before it
    touches the value. *)
Inductive result (A : Type) : Type :=
| Ok (a : A)
| Err (e : error).
Arguments Ok {A} a.
Arguments Err {A} e.

(** ** Certificates and pools *)

Record Certificate : Type := mkCert {
  Raw : string;          (* DER bytes *)
  PublicKey : string
}.

(** [x509.CertPool]: the certificates in insertion order, none twice. *)
Abbreviation CertPool := (list Certificate).

Definition NewCertPool : CertPool := [].

(** [Certificate.Equal] compares the raw encodings. *)
Definition certEqual (a b : Certificate) : bool := String.eqb (Raw a) (Raw b).

Definition contains (s : CertPool) (cert : Certificate) : bool :=
  existsb (certEqual cert) s.

(** [CertPool.AddCert] on a non-nil certificate. *)
Definition AddCert (s : CertPool) (cert : Certificate) : CertPool :=
  if contains s cert then s else s ++ [cert].

(** [len(caPool.Subjects())]. *)
Definition Subjects (s : CertPool) : list string := map Raw s.

(** ** Data of the enrollment package *)

Definition PrivateKey : Type := string.
Definition TLSCertificate : Type := string.
Definition CertificateRequest : Type := string.

(** [config.EnrollmentClaims], the fields the code reads or writes. *)
Record EnrollmentClaims : Type := mkClaims {
  Issuer : string;
  EnrollmentMethod : string;
  Id : string;
  SignatureCert : option Certificate
}.

Definition setSignatureCert (c : EnrollmentClaims) (cert : option Certificate)
  : EnrollmentClaims :=
  {| Issuer := Issuer c; EnrollmentMethod := EnrollmentMethod c;
     Id := Id c; SignatureCert := cert |}.

(** [jwt.Token] and its [Claims], an interface: [ValidateToken] asserts it
    to a pointer to [config.EnrollmentClaims], which may be nil. *)
Inductive jwt_Claims : Type :=
| EnrollmentClaimsPtr (c : option EnrollmentClaims)
| OtherClaims.

Record jwt_Token : Type := mkToken { Claims : jwt_Claims }.

Record EnrollmentFlags : Type := mkFlags {
  Token : EnrollmentClaims;
  JwtString : string;
  CertFile : string;
  KeyFile : string;
  IDName : string;
  AdditionalCAs : string
}.

(** [identity.IdentityConfig] and [config.Config]. *)
Record IdentityConfig : Type := mkID {
  Key : string;
  Cert : string;
  CA : string
}.

Record Config : Type := mkConfig {
  ZtAPI : string;
  ID : IdentityConfig
}.

Definition setKey (cfg : Config) (k : string) : Config :=
  {| ZtAPI := ZtAPI cfg;
     ID := {| Key := k; Cert := Cert (ID cfg); CA := CA (ID cfg) |} |}.

Definition setCert (cfg : Config) (c : string) : Config :=
  {| ZtAPI := ZtAPI cfg;
     ID := {| Key := Key (ID cfg); Cert := c; CA := CA (ID cfg) |} |}.

Definition setCA (cfg : Config) (c : string) : Config :=
  {| ZtAPI := ZtAPI cfg;
     ID := {| Key := Key (ID cfg); Cert := Cert (ID cfg); CA := c |} |}.

(** ** The network *)

Record Response : Type := mkResponse {
  StatusCode : Z;
  Status : string;
  Body : string * option error;          (* ioutil.ReadAll(resp.Body) *)
  TLS : option (list Certificate)        (* resp.TLS.PeerCertificates *)
}.

(** [tls.Config] as the code builds it. [RootCAs = None] is Go's nil pool:
    the platform's roots. *)
Inductive TLSConfig : Type :=
| InsecureSkipVerify
| Verify (RootCAs : option CertPool) (Certificates : list TLSCertificate).

Record URL : Type := mkURL {
  Scheme : string;
  Host : string;
  Path : string
}.

Definition setPath (u : URL) (p : string) : URL :=
  {| Scheme := Scheme u; Host := Host u; Path := p |}.

Record FileInfo : Type := mkFileInfo { IsDir : bool }.

(** ** Events and computations *)

Inductive event : Type :=
| EvStat (path : string)
| EvAbs (path : string)
| EvReadFile (path : string)
| EvHostname
| EvGenerateKey
| EvLoadKey (key : string)
| EvLoadIdentity (id : IdentityConfig)
| EvCreateCSR
| EvGet (tls : TLSConfig) (url : string)
| EvPost (tls : TLSConfig) (url contentType body : string).

Definition history : Type := list event.

Inductive outcome (A : Type) : Type :=
| Ret (a : A)
| Panic (msg : string)
| OutOfFuel.
Arguments Ret {A} a.
Arguments Panic {A} msg.
Arguments OutOfFuel {A}.

(** A computation is given the events performed before it and yields its
    outcome with the events it performed. *)
Definition M (A : Type) : Type := history -> outcome A * list event.

Definition ret {A} (a : A) : M A := fun _ => (Ret a, []).

Definition bind {A B} (m : M A) (f : A -> M B) : M B :=
  fun h =>
    match m h with
    | (Ret a, e1) => let '(r, e2) := f a (h ++ e1) in (r, e1 ++ e2)
    | (Panic msg, e1) => (Panic msg, e1)
    | (OutOfFuel, e1) => (OutOfFuel, e1)
    end.

Definition panic {A} (msg : string) : M A := fun _ => (Panic msg, []).

Definition outOfFuel {A} : M A := fun _ => (OutOfFuel, []).

(** Perform [e], answered by [f] from the history. *)
Definition perform {A} (e : event) (f : history -> A) : M A :=
  fun h => (Ret (f h), [e]).

Notation "x <- m ;; k" := (bind m (fun x => k))
  (at level 61, m at next level, right associativity).
Notation "' pat <- m ;; k" := (bind m (fun x => match x with pat => k end))
  (at level 61, pat pattern, m at next level, right associativity).

Definition nilDeref : string :=
  "runtime error: invalid memory address or nil pointer dereference".

(** ** JSON values and the gabs container (github.com/Jeffail/gabs v1.4.0)

    [json.Unmarshal] into an [interface{}] yields nil, bool, float64,
    string, [[]interface{}] or [map[string]interface{}]. *)
Inductive json : Type :=
| JNull
| JBool (b : bool)
| JNumber (n : Z)
| JString (s : string)
| JArray (l : list json)
| JObject (m : list (string * json)).

(** A pointer to [gabs.Container]: a nil pointer, or a container of a value. *)
Definition Container : Type := option json.

(** [Container.Search]: walk the hierarchy through objects; at an array,
    search every element for the rest of the hierarchy and collect the
    hits; nil when a name is missing or the value has no fields. *)
Fixpoint searchFrom (object : json) (hierarchy : list string) {struct object}
  : Container :=
  match hierarchy with
  | [] => Some object
  | target :: rest =>
      match object with
      | JObject mmap =>
          (fix lookup (m : list (string * json)) : Container :=
             match m with
             | [] => None
             | (k, v) :: m' =>
                 if String.eqb k target then searchFrom v rest else lookup m'
             end) mmap
      | JArray marray =>
          let tmpArray :=
            (fix each (l : list json) : list json :=
               match l with
               | [] => []
               | val :: l' =>
                   match searchFrom val hierarchy with
                   | Some d => d :: each l'
                   | None => each l'
                   end
               end) marray in
          match tmpArray with
          | [] => None
          | _ => Some (JArray tmpArray)
          end
      | _ => None
      end
  end.

(** [Container.Data]: nil for the nil container. *)
Definition Data (g : Container) : json :=
  match g with
  | None => JNull
  | Some object => object
  end.

Definition Search (g : Container) (hierarchy : list string) : Container :=
  searchFrom (Data g) hierarchy.

Definition Exists (g : Container) (hierarchy : list string) : bool :=
  match Search g hierarchy with
  | Some _ => true
  | None => false
  end.

Definition goTypeName (j : json) : string :=
  match j with
  | JNull => "nil"
  | JBool _ => "bool"
  | JNumber _ => "float64"
  | JString _ => "string"
  | JArray _ => "[]interface {}"
  | JObject _ => "map[string]interface {}"
  end.

(** The unchecked type assertion [x.(string)]: it panics unless the
    dynamic type of [x] is string. *)
Definition assertString (x : json) : M string :=
  match x with
  | JString s => ret s
  | _ => panic ("interface conversion: interface {} is " +++ goTypeName x
                +++ ", not string")
  end.

(** [strings.Split(s, sep)] for a separator of one character. *)
Fixpoint Split (s : string) (sep : ascii) : list string :=
  match s with
  | EmptyString => [EmptyString]
  | String c s' =>
      if Ascii.eqb c sep then EmptyString :: Split s' sep
      else match Split s' sep with
           | x :: xs => String c x :: xs
           | [] => [String c EmptyString]
           end
  end.

(** [Container.Path]: [Search] along the dot-separated path. *)
Definition SearchPath (g : Container) (path : string) : Container :=
  Search g (Split path "."%char).

(** ** The world: what the operating system, the libraries and the network
    answer *)

Record World : Type := mkWorld {
  (* operating system; an ignored or late-tested error comes paired *)
  os_Stat : history -> string -> option FileInfo * option error;
  filepath_Abs : history -> string -> string * option error;
  ioutil_ReadFile : history -> string -> string * option error;
  os_Hostname : history -> string * option error;
  (* keys and identities *)
  ecdsa_GenerateKey : history -> option PrivateKey * option error;
  identity_LoadKey : history -> string -> result PrivateKey;
  (* LoadIdentity, then [id.Cert()], a pointer *)
  identity_LoadIdentity :
    history -> IdentityConfig -> result (option TLSCertificate);
  x509_CreateCertificateRequest :
    history -> CertificateRequest -> PrivateKey -> result string;
  (* network *)
  http_Get : history -> TLSConfig -> string -> result Response;
  http_Post :
    history -> TLSConfig -> string -> string -> string -> result Response;
  (* pure library functions *)
  url_Parse : string -> result URL;
  url_String : URL -> string;
  path_Join : string -> string -> string;
  base64_DecodeString : string -> option string * option error;
  pkcs7_Parse : string -> result (list Certificate);
  x509_MarshalECPrivateKey : PrivateKey -> string * option error;
  pem_EncodeToMemory : string -> string -> string;
  nfpem_PemToX509 : string -> list Certificate;
  nfx509_MarshalToPem : list Certificate -> result string;
  (* NewCertRequest for the subject C=US, O=NetFoundry, CN=<hostname> *)
  certtools_NewCertRequest :
    string -> option CertificateRequest * option error;
  gabs_ParseJSON : string -> result json;
  (* json.Marshal of autoEnrollInput{Name} *)
  json_Marshal : string -> string * option error;
  (* the method EnrolmentUrl of config.EnrollmentClaims, declared in the
     config package: the URL to POST to, derived from the claims *)
  EnrolmentUrl : EnrollmentClaims -> string
}.

Section Enrollment.

Variable w : World.

(** ** Token validation (lines 74-108, 402-419) *)

Definition FetchServerCert (urlRoot : string)
  : M (option Certificate * option error) :=
  r <- perform (EvGet InsecureSkipVerify urlRoot)
         (fun h => http_Get w h InsecureSkipVerify urlRoot) ;;
  match r with
  | Err err =>
      ret (None, Some (Fundamental ("could not contact remote server ["
             +++ urlRoot +++ "]: " +++ Error err)))
  | Ok resp =>
      match TLS resp with
      | None | Some [] =>
          ret (None, Some (Fundamental "peer certificate information is missing"))
      | Some (c :: _) => ret (Some c, None)
      end
  end.

(** The result is the pair Go returns (the key to verify the signature
    with, the error) and the token as the call leaves it: the claims are
    behind a pointer and [ValidateToken] writes their [SignatureCert]. *)
Definition ValidateToken (token : option jwt_Token)
  : M ((option string * option error) * option jwt_Token) :=
  match token with
  | None =>
      ret ((None, Some (Fundamental "could not validate token, token is nil")),
           token)
  | Some tok =>
      match Claims tok with
      | OtherClaims =>
          ret ((None, Some (Fundamental
                  "could not validate token, token is not EnrollmentClaims")),
               token)
      | EnrollmentClaimsPtr None =>
          ret ((None, Some (Fundamental
                  "could not validate token, EnrollmentClaims are nil")),
               token)
      | EnrollmentClaimsPtr (Some claims) =>
          if isEmpty (Issuer claims) then
            ret ((None, Some (Fundamental
                    "could not validate token, issues is empty")), token)
          else
            match url_Parse w (Issuer claims) with
            | Err _ =>
                ret ((None, Some (Fundamental
                        ("could not validate token, issuer [" +++ Issuer claims
                         +++ "] is not a valid url "))), token)
            | Ok _ =>
                ' (cert, err) <- FetchServerCert (Issuer claims) ;;
                let token' :=
                  Some (mkToken (EnrollmentClaimsPtr
                                   (Some (setSignatureCert claims cert)))) in
                match err, cert with
                | None, Some c => ret ((Some (PublicKey c), None), token')
                | _, _ =>
                    ret ((None, Some (Fundamental
                            ("could not retrieve token URL certificate: "
                             +++ fmtErr err))), token')
                end
            end
      end
  end.

(** ** CA-bundle fetch (lines 423-470) *)

Definition is2xx (code : Z) : bool :=
  ((200 <=? code)%Z && (code <? 300)%Z)%bool.

(** The logger's [Panic] logs and then panics. *)
Definition FetchCertificates (urlRoot : string) (rootCaPool : option CertPool)
  : M (list Certificate) :=
  let tr := Verify rootCaPool [] in
  match url_Parse w urlRoot with
  | Err _ => panic "could not parse base url to retrieve CA store"
  | Ok certStoreUrl =>
      let certStoreUrl :=
        setPath certStoreUrl
          (path_Join w (Path certStoreUrl) ".well-known/est/cacerts") in
      r <- perform (EvGet tr (url_String w certStoreUrl))
             (fun h => http_Get w h tr (url_String w certStoreUrl)) ;;
      match r with
      | Err _ => ret []
      | Ok resp =>
          match Body resp with
          | (_, Some _) => ret []
          | (pkcs7b64, None) =>
              if is2xx (StatusCode resp) then
                match fst (base64_DecodeString w pkcs7b64) with
                | Some pkcs7Certs =>
                    match pkcs7_Parse w pkcs7Certs with
                    | Err _ => ret []
                    | Ok certs => ret certs
                    end
                | None => ret []
                end
              else ret []
          end
      end
  end.

(** ** Strategies (lines 229-400) *)

Definition useSystemCasIfEmpty (caPool : CertPool) : option CertPool :=
  if (length (Subjects caPool) <? 1)%nat then None else Some caPool.

(** [x509.CreateCertificateRequest] reads the fields of its template: a
    nil template is dereferenced. *)
Definition CreateCertificateRequest (template : option CertificateRequest)
  (priv : PrivateKey) : M (result string) :=
  match template with
  | None => panic nilDeref
  | Some t =>
      perform EvCreateCSR (fun h => x509_CreateCertificateRequest w h t priv)
  end.

Definition StatusOK : Z := 200.
Definition StatusConflict : Z := 409.
Definition StatusMultipleChoices : Z := 300.

Definition enrollOTT (token : EnrollmentClaims) (cfg : Config)
  (caPool : CertPool) : M (Config * option error) :=
  r <- perform (EvLoadKey (Key (ID cfg)))
         (fun h => identity_LoadKey w h (Key (ID cfg))) ;;
  match r with
  | Err err =>
      ret (cfg, Some (Fundamental ("failed to load private key '"
             +++ Key (ID cfg) +++ "': " +++ Error err)))
  | Ok pk =>
      ' (hostname, _) <- perform EvHostname (os_Hostname w) ;;
      let '(request, _) := certtools_NewCertRequest w hostname in
      r <- CreateCertificateRequest request pk ;;
      match r with
      | Err err => ret (cfg, Some err)
      | Ok csr =>
          let csrPem := pem_EncodeToMemory w "CERTIFICATE REQUEST" csr in
          let tlsc := Verify (useSystemCasIfEmpty caPool) [] in
          r <- perform (EvPost tlsc (EnrolmentUrl w token) "text/plain" csrPem)
                 (fun h => http_Post w h tlsc (EnrolmentUrl w token)
                             "text/plain" csrPem) ;;
          match r with
          | Err err => ret (cfg, Some err)
          | Ok resp =>
              let '(body, err) := Body resp in
              match err with
              | Some _ =>
                  ret (cfg, Some (Fundamental ("enroll error: " +++ Status resp
                         +++ ": could not read body: " +++ body)))
              | None =>
                  if (StatusCode resp =? StatusOK)%Z then
                    ret (setCert cfg ("pem:" +++ body), None)
                  else
                    match gabs_ParseJSON w body with
                    | Err _ =>
                        ret (cfg, Some (Fundamental ("enroll error: "
                               +++ Status resp +++ ": could not parse body: "
                               +++ body)))
                    | Ok object =>
                        let jsonErr : Container := Some object in
                        if Exists jsonErr ["error"; "message"] then
                          message <- assertString
                            (Data (Search jsonErr ["error"; "message"])) ;;
                          code <- assertString
                            (Data (Search jsonErr ["error"; "code"])) ;;
                          cause <-
                            (if Exists jsonErr ["error"; "cause"; "message"]
                             then assertString
                                    (Data (Search jsonErr
                                             ["error"; "cause"; "message"]))
                             else ret "") ;;
                          cause <-
                            (if (isEmpty cause
                                 && Exists jsonErr ["error"; "causeMessage"])%bool
                             then assertString
                                    (Data (Search jsonErr
                                             ["error"; "causeMessage"]))
                             else ret cause) ;;
                          ret (cfg, Some (Fundamental ("enroll error: "
                                 +++ Status resp +++ " - code: " +++ code
                                 +++ " - message: " +++ message
                                 +++ " - cause: " +++ cause)))
                        else
                          ret (cfg, Some (Fundamental ("enroll error: "
                                 +++ Status resp +++ ": unrecognized response: "
                                 +++ body)))
                    end
              end
          end
      end
  end.

Definition alreadyEnrolled : error :=
  Fundamental "the provided identity has already been enrolled".

(** [*clientCert] of the pointer [id.Cert()]. *)
Definition deref (clientCert : option TLSCertificate) : M TLSCertificate :=
  match clientCert with
  | None => panic nilDeref
  | Some c => ret c
  end.

Definition enrollCA (token : EnrollmentClaims) (cfg : Config)
  (caPool : CertPool) : M (Config * option error) :=
  r <- perform (EvLoadIdentity (ID cfg))
         (fun h => identity_LoadIdentity w h (ID cfg)) ;;
  match r with
  | Err err => ret (cfg, Some err)
  | Ok clientCert =>
      cert <- deref clientCert ;;
      let tlsc := Verify (useSystemCasIfEmpty caPool) [cert] in
      r <- perform (EvPost tlsc (EnrolmentUrl w token) "text/plain" "")
             (fun h => http_Post w h tlsc (EnrolmentUrl w token)
                         "text/plain" "") ;;
      match r with
      | Err err => ret (cfg, Some err)
      | Ok resp =>
          if negb (StatusCode resp =? StatusOK)%Z then
            if (StatusCode resp =? StatusConflict)%Z then
              ret (cfg, Some alreadyEnrolled)
            else
              ret (cfg, Some (Fundamental ("enroll error: " +++ Status resp)))
          else ret (cfg, None)
      end
  end.

(** Lines 362-373: the JSON of the name when a name was given ([merr] is
    only logged), the nil slice otherwise. *)
Definition namedBody (enFlags : EnrollmentFlags) : string :=
  if negb (isEmpty (TrimSpace (IDName enFlags)))
  then fst (json_Marshal w (TrimSpace (IDName enFlags)))
  else "".

Definition enrollCAAuto (enFlags : EnrollmentFlags) (cfg : Config)
  (caPool : CertPool) : M (Config * option error) :=
  r <- perform (EvLoadIdentity (ID cfg))
         (fun h => identity_LoadIdentity w h (ID cfg)) ;;
  match r with
  | Err err => ret (cfg, Some err)
  | Ok clientCert =>
      cert <- deref clientCert ;;
      let tlsc := Verify (useSystemCasIfEmpty caPool) [cert] in
      let postBody := namedBody enFlags in
      let url := EnrolmentUrl w (Token enFlags) in
      r <- perform (EvPost tlsc url "application/json" postBody)
             (fun h => http_Post w h tlsc url "application/json" postBody) ;;
      match r with
      | Err postErr => ret (cfg, Some postErr)
      | Ok resp =>
          if negb (StatusCode resp =? StatusOK)%Z then
            if (StatusCode resp =? StatusConflict)%Z then
              ret (cfg, Some alreadyEnrolled)
            else
              let '(body, err) := Body resp in
              match err with
              | Some _ =>
                  ret (cfg, Some (Fundamental ("enroll error: " +++ Status resp)))
              | None =>
                  match gabs_ParseJSON w body with
                  | Ok object =>
                      let respContainer : Container := Some object in
                      code <- assertString
                        (Data (SearchPath respContainer "error.code")) ;;
                      message <- assertString
                        (Data (SearchPath respContainer "error.message")) ;;
                      ret (cfg, Some (Fundamental ("enroll error: "
                             +++ Status resp +++ ": " +++ code +++ ": "
                             +++ message)))
                  | Err _ =>
                      ret (cfg, Some (Fundamental ("enroll error: "
                             +++ Status resp +++ ": " +++ body)))
                  end
              end
          else ret (cfg, None)
      end
  end.

(** ** The orchestrator (lines 110-221) *)

Definition generateKey : M (option PrivateKey * option error) :=
  perform EvGenerateKey (ecdsa_GenerateKey w).

(** [x509.MarshalECPrivateKey] reads the curve of its key: a nil key is
    dereferenced. *)
Definition MarshalECPrivateKey (key : option PrivateKey)
  : M (string * option error) :=
  match key with
  | None => panic nilDeref
  | Some k => ret (x509_MarshalECPrivateKey w k)
  end.

(** What [Enroll] hands back: the configuration pointer and the error. *)
Definition returned : Type := (option Config * option error)%type.

(** Lines 117-141: the key of the configuration, or an early return. *)
Definition prepareKey (enFlags : EnrollmentFlags) (cfg : Config)
  : M (Config + returned) :=
  if negb (isEmpty (TrimSpace (KeyFile enFlags))) then
    ' (stat, err) <- perform (EvStat (KeyFile enFlags))
                       (fun h => os_Stat w h (KeyFile enFlags)) ;;
    match stat with
    | Some info =>
        if negb (IsNotExist err) then
          if IsDir info then
            ret (inr (None, Some (Fundamental
                   ("specified key is a directory (" +++ KeyFile enFlags
                    +++ ")"))))
          else
            ' (absPath, fileErr) <- perform (EvAbs (KeyFile enFlags))
                 (fun h => filepath_Abs w h (KeyFile enFlags)) ;;
            match fileErr with
            | Some e => ret (inr (None, Some e))
            | None => ret (inl (setKey cfg ("file://" +++ absPath)))
            end
        else ret (inl (setKey cfg (KeyFile enFlags)))
    | None => ret (inl (setKey cfg (KeyFile enFlags)))
    end
  else
    ' (key, err) <- generateKey ;;
    ' (asnBytes, _) <- MarshalECPrivateKey key ;;
    let keyPem := pem_EncodeToMemory w "EC PRIVATE KEY" asnBytes in
    let cfg := setKey cfg ("pem:" +++ keyPem) in
    match err with
    | Some e => ret (inr (None, Some e))
    | None => ret (inl cfg)
    end.

(** The body of both [range] loops over certificates (lines 150-153 and
    196-199): append to [allowedCerts], add to [caPool]. *)
Fixpoint addCerts (allowedCerts : list Certificate) (caPool : CertPool)
  (xs : list Certificate) : list Certificate * CertPool :=
  match xs with
  | [] => (allowedCerts, caPool)
  | xcert :: xs' => addCerts (allowedCerts ++ [xcert]) (AddCert caPool xcert) xs'
  end.

(** Lines 143-154: the pool and the list start empty and take the
    certificates of the override file. *)
Definition overrideCAs (enFlags : EnrollmentFlags)
  : M (list Certificate * CertPool) :=
  let caPool := NewCertPool in
  let allowedCerts : list Certificate := [] in
  if negb (isEmpty (TrimSpace (AdditionalCAs enFlags))) then
    ' (caPEMs, _) <- perform (EvReadFile (AdditionalCAs enFlags))
                       (fun h => ioutil_ReadFile w h (AdditionalCAs enFlags)) ;;
    ret (addCerts allowedCerts caPool (nfpem_PemToX509 w caPEMs))
  else ret (allowedCerts, caPool).

Definition setCertFile (enFlags : EnrollmentFlags) (f : string)
  : EnrollmentFlags :=
  {| Token := Token enFlags; JwtString := JwtString enFlags;
     CertFile := f; KeyFile := KeyFile enFlags; IDName := IDName enFlags;
     AdditionalCAs := AdditionalCAs enFlags |}.

(** Lines 156-159. *)
Definition existingCert (enFlags : EnrollmentFlags) (cfg : Config)
  : M (EnrollmentFlags * Config) :=
  if negb (isEmpty (CertFile enFlags)) then
    ' (abs, _) <- perform (EvAbs (CertFile enFlags))
                    (fun h => filepath_Abs w h (CertFile enFlags)) ;;
    ret (setCertFile enFlags abs, setCert cfg ("file://" +++ abs))
  else ret (enFlags, cfg).

(** The [switch] of lines 169-179: the error of the chosen strategy, the
    configuration as the strategy leaves it, and whether the default case
    set [enrollmentComplete]. *)
Definition strategy (enFlags : EnrollmentFlags) (cfg : Config)
  (caPool : CertPool) : M (Config * option error * bool) :=
  let method := EnrollmentMethod (Token enFlags) in
  if String.eqb method "ott" then
    r <- enrollOTT (Token enFlags) cfg caPool ;; ret (r, false)
  else if String.eqb method "ottca" then
    r <- enrollCA (Token enFlags) cfg caPool ;; ret (r, false)
  else if String.eqb method "ca" then
    r <- enrollCAAuto enFlags cfg caPool ;; ret (r, false)
  else
    ret ((cfg, Some (Fundamental ("enrollment method '" +++ method
                                  +++ "' is not supported"))), true).

(** The variables the loop of lines 168-209 reads and writes. *)
Record LoopState : Type := mkLoop {
  lsCfg : Config;
  lsCaPool : CertPool;
  lsAllowedCerts : list Certificate;
  enrollmentComplete : bool;
  shouldFetchCerts : bool
}.

(** [CertPool.AddCert] as Go has it: a nil certificate panics. *)
Definition AddCertPtr (s : CertPool) (cert : option Certificate) : M CertPool :=
  match cert with
  | None => panic "adding nil Certificate to CertPool"
  | Some c => ret (AddCert s c)
  end.

(** One turn of the loop: the state for the next test of the loop
    condition, or the [return] of line 207. *)
Definition loopBody (enFlags : EnrollmentFlags) (st : LoopState)
  : M (LoopState + returned) :=
  ' (cfg, enrollErr, complete) <- strategy enFlags (lsCfg st) (lsCaPool st) ;;
  let complete := (enrollmentComplete st || complete)%bool in
  match enrollErr with
  | None =>
      ret (inl (mkLoop cfg (lsCaPool st) (lsAllowedCerts st) true
                  (shouldFetchCerts st)))
  | Some e =>
      match e with
      | UrlError _ _ UnknownAuthorityError =>
          if shouldFetchCerts st then
            rootCaPool <- AddCertPtr NewCertPool
                            (SignatureCert (Token enFlags)) ;;
            certs <- FetchCertificates (ZtAPI cfg) (Some rootCaPool) ;;
            let '(allowedCerts, caPool) :=
              addCerts (lsAllowedCerts st) (lsCaPool st) certs in
            ret (inl (mkLoop cfg caPool allowedCerts complete false))
          else ret (inr (Some cfg, Some e))
      | _ => ret (inr (Some cfg, Some e))
      end
  end.

(** [for !enrollmentComplete { ... }]; the fuel bounds the turns. *)
Fixpoint enrollLoop (fuel : nat) (enFlags : EnrollmentFlags) (st : LoopState)
  : M (LoopState + returned) :=
  if enrollmentComplete st then ret (inl st)
  else
    match fuel with
    | O => outOfFuel
    | S fuel' =>
        r <- loopBody enFlags st ;;
        match r with
        | inl st' => enrollLoop fuel' enFlags st'
        | inr out => ret (inr out)
        end
    end.

(** Lines 211-220. *)
Definition finish (cfg : Config) (allowedCerts : list Certificate)
  : M returned :=
  if (0 <? length allowedCerts)%nat then
    match nfx509_MarshalToPem w allowedCerts with
    | Err merr => ret (None, Some merr)
    | Ok buf => ret (Some (setCA cfg ("pem:" +++ buf)), None)
    end
  else ret (Some cfg, None).

(** Everything after the key is prepared (lines 143-221). *)
Definition enrollWithKey (fuel : nat) (enFlags : EnrollmentFlags)
  (cfg : Config) : M returned :=
  ' (allowedCerts, caPool) <- overrideCAs enFlags ;;
  ' (enFlags, cfg) <- existingCert enFlags cfg ;;
  r <- enrollLoop fuel enFlags (mkLoop cfg caPool allowedCerts false true) ;;
  match r with
  | inr out => ret out
  | inl st => finish (lsCfg st) (lsAllowedCerts st)
  end.

Definition newConfig (enFlags : EnrollmentFlags) : Config :=
  {| ZtAPI := Issuer (Token enFlags);
     ID := {| Key := ""; Cert := ""; CA := "" |} |}.

Definition Enroll (fuel : nat) (enFlags : EnrollmentFlags) : M returned :=
  r <- prepareKey enFlags (newConfig enFlags) ;;
  match r with
  | inr out => ret out
  | inl cfg => enrollWithKey fuel enFlags cfg
  end.

End Enrollment.

(** ** Counting the network calls of a run *)

Definition isGet (e : event) : bool :=
  match e with EvGet _ _ => true | _ => false end.

Definition isPost (e : event) : bool :=
  match e with EvPost _ _ _ _ => true | _ => false end.

Definition gets (evs : list event) : nat := length (filter isGet evs).
Definition posts (evs : list event) : nat := length (filter isPost evs).

(** A postcondition on the outcome and the events of a computation,
    whatever the history it starts from. *)
Definition post {A} (m : M A) (Q : outcome A -> list event -> Prop) : Prop :=
  forall h, Q (fst (m h)) (snd (m h)).

(** The turns of the loop as a step relation on the loop variables and the
    history. *)
Inductive loopStep (w : World) (enFlags : EnrollmentFlags)
  : LoopState * history -> LoopState * history -> Prop :=
| loopStep_turn st h st' evs :
    enrollmentComplete st = false ->
    loopBody w enFlags st h = (Ret (inl st'), evs) ->
    loopStep w enFlags (st, h) (st', h ++ evs).

Inductive reaches (w : World) (enFlags : EnrollmentFlags)
  : LoopState * history -> LoopState * history -> Prop :=
| reaches_here s : reaches w enFlags s s
| reaches_step s1 s2 s3 :
    loopStep w enFlags s1 s2 -> reaches w enFlags s2 s3 ->
    reaches w enFlags s1 s3.

(** The token is one [ValidateToken] let through: its issuer parses as a
    URL and its signature certificate is there. *)
Definition validated (w : World) (claims : EnrollmentClaims) : Prop :=
  (exists u, url_Parse w (Issuer claims) = Ok u)
  /\ exists c, SignatureCert claims = Some c.

(** ** Worlds and inputs to run the model on *)

Definition leafCert : Certificate := mkCert "LEAF-DER" "LEAF-KEY".
Definition caCert : Certificate := mkCert "CA-DER" "CA-KEY".

Definition quoted (s : string) : string := dq +++ s +++ dq.

(** The text [{"error":{"message":"bad csr"}}]. *)
Definition bodyMessageOnly : string :=
  "{" +++ quoted "error" +++ ":{" +++ quoted "message" +++ ":"
  +++ quoted "bad csr" +++ "}}".

Definition jsonMessageOnly : json :=
  JObject [("error", JObject [("message", JString "bad csr")])].

(** The text [{"error":{"code":"INVALID","message":"bad csr"}}]. *)
Definition bodyCodeMessage : string :=
  "{" +++ quoted "error" +++ ":{" +++ quoted "code" +++ ":"
  +++ quoted "INVALID" +++ "," +++ quoted "message" +++ ":"
  +++ quoted "bad csr" +++ "}}".

Definition jsonCodeMessage : json :=
  JObject [("error", JObject [("code", JString "INVALID");
                              ("message", JString "bad csr")])].

(** A JSON reader that knows the three bodies used below. *)
Definition labParseJSON (body : string) : result json :=
  if String.eqb body bodyMessageOnly then Ok jsonMessageOnly
  else if String.eqb body bodyCodeMessage then Ok jsonCodeMessage
  else if String.eqb body "{}" then Ok (JObject [])
  else Err (OtherError "invalid character looking for beginning of value").

(** A URL reader that, like Go's, refuses a text starting with a colon
    (missing protocol scheme) and otherwise keeps the text as the host. *)
Definition labUrlParse (s : string) : result URL :=
  match s with
  | String ":" _ => Err (OtherError "missing protocol scheme")
  | _ => Ok {| Scheme := ""; Host := s; Path := "" |}
  end.

Definition labWorld (keygen : option PrivateKey * option error)
  (get post : history -> result Response) : World :=
  {| os_Stat := fun _ p => (None, Some (ErrNotExist "stat" p));
     filepath_Abs := fun _ p => ("/work/" +++ p, None);
     ioutil_ReadFile := fun _ p => ("", Some (ErrNotExist "open" p));
     os_Hostname := fun _ => ("edge-01", None);
     ecdsa_GenerateKey := fun _ => keygen;
     identity_LoadKey := fun _ k => Ok k;
     identity_LoadIdentity := fun _ _ => Ok (Some "CLIENT-CERT");
     x509_CreateCertificateRequest := fun _ t _ => Ok ("CSR:" +++ t);
     http_Get := fun h _ _ => get h;
     http_Post := fun h _ _ _ _ => post h;
     url_Parse := labUrlParse;
     url_String := fun u => Host u +++ Path u;
     path_Join := fun a b => a +++ "/" +++ b;
     base64_DecodeString := fun s => (Some s, None);
     pkcs7_Parse := fun s =>
       if String.eqb s "PKCS7" then Ok [caCert]
       else Err (OtherError "ber2der: input ber is empty");
     x509_MarshalECPrivateKey := fun k => ("ASN1:" +++ k, None);
     pem_EncodeToMemory := fun t b => "PEM[" +++ t +++ "]" +++ b;
     nfpem_PemToX509 := fun _ => [];
     nfx509_MarshalToPem := fun cs => Ok (String.concat "," (map Raw cs));
     certtools_NewCertRequest := fun cn => (Some cn, None);
     gabs_ParseJSON := labParseJSON;
     json_Marshal := fun n => ("{" +++ quoted "name" +++ ":" +++ quoted n
                               +++ "}", None);
     EnrolmentUrl := fun c => Issuer c +++ "/enroll?method="
                              +++ EnrollmentMethod c +++ "&token=" +++ Id c |}.

Definition refused : result Response :=
  Err (UrlError "Get" "https://ctrl.example"
         (OtherError "dial tcp: connection refused")).

Definition unknownAuthority : error :=
  UrlError "Post" "https://ctrl.example/enroll" UnknownAuthorityError.

Definition respond (code : Z) (status body : string) : result Response :=
  Ok {| StatusCode := code; Status := status; Body := (body, None);
        TLS := None |}.

Definition goodKey : option PrivateKey * option error := (Some "P384", None).

(** The server's chain is unknown on every POST; the CA bundle is served. *)
Definition untrustedWorld : World :=
  labWorld goodKey (fun _ => respond 200 "200 OK" "PKCS7")
    (fun _ => Err unknownAuthority).

(** The chain is unknown until the CA bundle was fetched. *)
Definition tofuWorld : World :=
  labWorld goodKey (fun _ => respond 200 "200 OK" "PKCS7")
    (fun h => if existsb isGet h then respond 200 "200 OK" "CERT-PEM"
              else Err unknownAuthority).

(** Every POST is answered with the given status and body. *)
Definition serverWorld (code : Z) (status body : string) : World :=
  labWorld goodKey (fun _ => refused) (fun _ => respond code status body).

(** The random source fails: [ecdsa.GenerateKey] returns a nil key and an
    error. *)
Definition noEntropyWorld : World :=
  labWorld (None, Some (OtherError "read /dev/urandom: input/output error"))
    (fun _ => refused) (fun _ => respond 200 "200 OK" "CERT-PEM").

Definition claimsFor (method : string) : EnrollmentClaims :=
  {| Issuer := "https://ctrl.example"; EnrollmentMethod := method;
     Id := "jti-1"; SignatureCert := Some leafCert |}.

Definition flagsFor (method keyFile : string) : EnrollmentFlags :=
  {| Token := claimsFor method; JwtString := ""; CertFile := "";
     KeyFile := keyFile; IDName := ""; AdditionalCAs := "" |}.

Definition emptyIssuerClaims : EnrollmentClaims :=
  {| Issuer := ""; EnrollmentMethod := "ott"; Id := "jti-1";
     SignatureCert := None |}.

(** U+00A0, the no-break space, and U+3000, the ideographic space, as Go
    strings hold them: in UTF-8. *)
Definition nbsp : string :=
  String (ascii_of_nat 194) (String (ascii_of_nat 160) EmptyString).

Definition ideographicSpace : string :=
  String (ascii_of_nat 227)
    (String (ascii_of_nat 128) (String (ascii_of_nat 128) EmptyString)).

(** A token that did not pass through [ValidateToken]: the issuer is
    there, the signature certificate is nil. *)
Definition unsignedClaims (method : string) : EnrollmentClaims :=
  {| Issuer := "https://ctrl.example"; EnrollmentMethod := method;
     Id := "jti-1"; SignatureCert := None |}.

Definition unsignedFlags (method : string) : EnrollmentFlags :=
  {| Token := unsignedClaims method; JwtString := ""; CertFile := "";
     KeyFile := ""; IDName := ""; AdditionalCAs := "" |}.

(** What every strategy guarantees about its own run: it ends, it makes no
    GET and at most one POST, and it leaves the endpoint of the
    configuration alone. *)
Definition strategyPost (cfg : Config)
  : outcome (Config * option error) -> list event -> Prop :=
  fun r evs =>
    r <> OutOfFuel /\ gets evs = 0 /\ posts evs <= 1
    /\ forall cfg' e, r = Ret (cfg', e) -> ZtAPI cfg' = ZtAPI cfg.

(** A computation that ends and stays off the network. *)
Definition offline {A} : outcome A -> list event -> Prop :=
  fun r evs => r <> OutOfFuel /\ gets evs = 0 /\ posts evs = 0.

(** The turns the loop still has to take, at most. *)
Definition turns (st : LoopState) : nat :=
  if enrollmentComplete st then 0
  else if shouldFetchCerts st then 2 else 1.

(** The CA-bundle fetches the loop may still make. *)
Definition fetchesLeft (st : LoopState) : nat :=
  if enrollmentComplete st then 0
  else if shouldFetchCerts st then 1 else 0.

(** The URL of the CA bundle under a parsed base URL (line 434). *)
Definition wellKnown (w : World) (u : URL) : string :=
  url_String w (setPath u (path_Join w (Path u) ".well-known/est/cacerts")).

(** How the loop ends once the retried strategy has answered: success
    completes the loop, any error is the [return] of line 207. *)
Definition afterRetry (caPool : CertPool) (allowedCerts : list Certificate)
  (r : outcome (Config * option error * bool))
  : outcome (LoopState + returned) :=
  match r with
  | Ret (cfg, None, _) => Ret (inl (mkLoop cfg caPool allowedCerts true false))
  | Ret (cfg, Some e, _) => Ret (inr (Some cfg, Some e))
  | Panic msg => Panic msg
  | OutOfFuel => OutOfFuel
  end.

(** The bundle endpoint answers 404. *)
Definition noBundleWorld : World :=
  labWorld goodKey (fun _ => respond 404 "404 Not Found" "not found")
    (fun _ => Err unknownAuthority).

(** [w] with another base64 decoder. *)
Definition withDecode (w : World)
  (decode : string -> option string * option error) : World :=
  {| os_Stat := os_Stat w; filepath_Abs := filepath_Abs w;
     ioutil_ReadFile := ioutil_ReadFile w; os_Hostname := os_Hostname w;
     ecdsa_GenerateKey := ecdsa_GenerateKey w;
     identity_LoadKey := identity_LoadKey w;
     identity_LoadIdentity := identity_LoadIdentity w;
     x509_CreateCertificateRequest := x509_CreateCertificateRequest w;
     http_Get := http_Get w; http_Post := http_Post w;
     url_Parse := url_Parse w; url_String := url_String w;
     path_Join := path_Join w; base64_DecodeString := decode;
     pkcs7_Parse := pkcs7_Parse w;
     x509_MarshalECPrivateKey := x509_MarshalECPrivateKey w;
     pem_EncodeToMemory := pem_EncodeToMemory w;
     nfpem_PemToX509 := nfpem_PemToX509 w;
     nfx509_MarshalToPem := nfx509_MarshalToPem w;
     certtools_NewCertRequest := certtools_NewCertRequest w;
     gabs_ParseJSON := gabs_ParseJSON w; json_Marshal := json_Marshal w;
     EnrolmentUrl := EnrolmentUrl w |}.

(** Go's decoder hands back the bytes decoded before the corrupt input
    together with the error: here the bundle followed by a stray [!]. *)
Definition trailingGarbageWorld : World :=
  withDecode (labWorld goodKey (fun _ => respond 200 "200 OK" "PKCS7!")
                (fun _ => Err unknownAuthority))
    (fun s => if String.eqb s "PKCS7!"
              then (Some "PKCS7", Some (OtherError
                      "illegal base64 data at input byte 5"))
              else (Some s, None)).

(** The controller answers the POST with status 200 and the connection
    breaks while the body is read: [ioutil.ReadAll] hands back the bytes it
    got together with an error. *)
Definition truncatedWorld : World :=
  labWorld goodKey (fun _ => refused)
    (fun _ => Ok {| StatusCode := 200; Status := "200 OK";
                    Body := ("CERT-", Some (OtherError "unexpected EOF"));
                    TLS := None |}).

(** ** Predicates on events, configurations and pools *)

(** What a strategy may perform on the network: no GET, and POSTs to the
    enrollment URL of the claims only, never with verification off. *)
Definition postsTo (w : World) (claims : EnrollmentClaims) (e : event) : Prop :=
  match e with
  | EvGet _ _ => False
  | EvPost tls url _ _ =>
      url = EnrolmentUrl w claims /\ tls <> InsecureSkipVerify
  | _ => True
  end.

(** What a run of [Enroll] may perform on the network: the POSTs of a
    strategy, and GETs of the CA bundle of the issuer, verified against the
    signature certificate of the claims and nothing else. *)
Definition enrollEvent (w : World) (claims : EnrollmentClaims) (e : event)
  : Prop :=
  match e with
  | EvGet tls url =>
      exists sc u,
        SignatureCert claims = Some sc
        /\ url_Parse w (Issuer claims) = Ok u
        /\ tls = Verify (Some [sc]) []
        /\ url = wellKnown w u
  | EvPost tls url _ _ =>
      url = EnrolmentUrl w claims /\ tls <> InsecureSkipVerify
  | _ => True
  end.

(** The key reference of a run that starts at history [h] (lines 117-141):
    with no key file given, [pem:] and the PEM of the key that was
    generated; with a key file that stat finds (and does not report
    missing), [file://] and the absolute path [filepath.Abs] answers for
    that regular file; otherwise the key file as it was given. *)
Definition keyForm (w : World) (enFlags : EnrollmentFlags) (h : history)
  (k : string) : Prop :=
  if isEmpty (TrimSpace (KeyFile enFlags)) then
    exists key,
      ecdsa_GenerateKey w h = (Some key, None)
      /\ k = "pem:" +++ pem_EncodeToMemory w "EC PRIVATE KEY"
                          (fst (x509_MarshalECPrivateKey w key))
  else
    match os_Stat w h (KeyFile enFlags) with
    | (Some info, err) =>
        if IsNotExist err then k = KeyFile enFlags
        else
          IsDir info = false
          /\ exists absPath,
               filepath_Abs w (h ++ [EvStat (KeyFile enFlags)])
                 (KeyFile enFlags) = (absPath, None)
               /\ k = "file://" +++ absPath
    | (None, _) => k = KeyFile enFlags
    end.

(** What a strategy leaves of the configuration it was given: everything
    but the certificate, and the certificate too when it fails. *)
Definition keepsConfig (cfg : Config)
  (r : outcome (Config * option error)) : Prop :=
  forall cfg' e,
    r = Ret (cfg', e) ->
    ZtAPI cfg' = ZtAPI cfg
    /\ Key (ID cfg') = Key (ID cfg)
    /\ CA (ID cfg') = CA (ID cfg)
    /\ (e <> None -> cfg' = cfg).

(** The list and the pool hold the same certificates, up to
    [Certificate.Equal]. *)
Definition inStep (allowedCerts : list Certificate) (caPool : CertPool)
  : Prop :=
  forall c, contains allowedCerts c = contains caPool c.

(** No certificate is twice in the pool. *)
Definition distinct (caPool : CertPool) : Prop := NoDup (map Raw caPool).

(** The endpoint and the key reference a run holds on to. *)
Definition held (enFlags : EnrollmentFlags) (k : string) (cfg : Config)
  : Prop :=
  ZtAPI cfg = Issuer (Token enFlags) /\ Key (ID cfg) = k.

(** [w] over another disk: what stat, Abs and ReadFile answer and what a
    PEM text holds. *)
Definition withFiles (w : World)
  (stat : history -> string -> option FileInfo * option error)
  (abs readFile : history -> string -> string * option error)
  (pemToX509 : string -> list Certificate) : World :=
  {| os_Stat := stat; filepath_Abs := abs; ioutil_ReadFile := readFile;
     os_Hostname := os_Hostname w;
     ecdsa_GenerateKey := ecdsa_GenerateKey w;
     identity_LoadKey := identity_LoadKey w;
     identity_LoadIdentity := identity_LoadIdentity w;
     x509_CreateCertificateRequest := x509_CreateCertificateRequest w;
     http_Get := http_Get w; http_Post := http_Post w;
     url_Parse := url_Parse w; url_String := url_String w;
     path_Join := path_Join w;
     base64_DecodeString := base64_DecodeString w;
     pkcs7_Parse := pkcs7_Parse w;
     x509_MarshalECPrivateKey := x509_MarshalECPrivateKey w;
     pem_EncodeToMemory := pem_EncodeToMemory w;
     nfpem_PemToX509 := pemToX509;
     nfx509_MarshalToPem := nfx509_MarshalToPem w;
     certtools_NewCertRequest := certtools_NewCertRequest w;
     gabs_ParseJSON := gabs_ParseJSON w; json_Marshal := json_Marshal w;
     EnrolmentUrl := EnrolmentUrl w |}.

(** A disk with a directory [keys], a key file [id.key] and a CA override
    file [cas.pem] that names the CA twice. *)
Definition diskWorld : World :=
  withFiles tofuWorld
    (fun _ p =>
       if String.eqb p "keys" then (Some (mkFileInfo true), None)
       else if String.eqb p "id.key" then (Some (mkFileInfo false), None)
       else (None, Some (ErrNotExist "stat" p)))
    (fun _ p => ("/work/" +++ p, None))
    (fun _ p =>
       if String.eqb p "cas.pem" then ("PEM-BUNDLE", None)
       else ("", Some (ErrNotExist "open" p)))
    (fun s => if String.eqb s "PEM-BUNDLE" then [caCert; leafCert; caCert]
              else []).

Definition flagsWithCAs (method keyFile caFile : string) : EnrollmentFlags :=
  {| Token := claimsFor method; JwtString := ""; CertFile := "";
     KeyFile := keyFile; IDName := ""; AdditionalCAs := caFile |}.

(** The token-based strategy got as far as a response: the key was
    loaded, the request built and signed, the POST answered. *)
Definition ottAnswered (w : World) (token : EnrollmentClaims) (cfg : Config)
  (caPool : CertPool) (h : history) (resp : Response) : Prop :=
  exists pk hostname e1 request e2 csr,
    identity_LoadKey w h (Key (ID cfg)) = Ok pk
    /\ os_Hostname w (h ++ [EvLoadKey (Key (ID cfg))]) = (hostname, e1)
    /\ certtools_NewCertRequest w hostname = (Some request, e2)
    /\ x509_CreateCertificateRequest w
         (h ++ [EvLoadKey (Key (ID cfg)); EvHostname]) request pk = Ok csr
    /\ http_Post w (h ++ [EvLoadKey (Key (ID cfg)); EvHostname; EvCreateCSR])
         (Verify (useSystemCasIfEmpty caPool) []) (EnrolmentUrl w token)
         "text/plain" (pem_EncodeToMemory w "CERTIFICATE REQUEST" csr)
       = Ok resp.

(** The CA-based strategy with naming got as far as a response. *)
Definition caAutoAnswered (w : World) (enFlags : EnrollmentFlags)
  (cfg : Config) (caPool : CertPool) (h : history) (resp : Response) : Prop :=
  exists clientCert,
    identity_LoadIdentity w h (ID cfg) = Ok (Some clientCert)
    /\ http_Post w (h ++ [EvLoadIdentity (ID cfg)])
         (Verify (useSystemCasIfEmpty caPool) [clientCert])
         (EnrolmentUrl w (Token enFlags)) "application/json"
         (namedBody w enFlags) = Ok resp.

(** The CA-based strategy got as far as a response. *)
Definition caAnswered (w : World) (token : EnrollmentClaims) (cfg : Config)
  (caPool : CertPool) (h : history) (resp : Response) : Prop :=
  exists clientCert,
    identity_LoadIdentity w h (ID cfg) = Ok (Some clientCert)
    /\ http_Post w (h ++ [EvLoadIdentity (ID cfg)])
         (Verify (useSystemCasIfEmpty caPool) [clientCert])
         (EnrolmentUrl w token) "text/plain" "" = Ok resp.

(** ** Parsing the token (lines 59-72)

    [ParseToken] hands the trimmed text, a fresh [EnrollmentClaims] and
    [ValidateToken] to the parser of github.com/dgrijalva/jwt-go (v3.2.0,
    claims validation on).  What the library contributes is a parameter:
    the decoding of the text into claims, the validity of the claims and
    the verification of the signature. *)
Record JwtLib : Type := mkJwtLib {
  (* Parser.ParseUnverified: segments, header and claims of the text *)
  jwt_ParseUnverified : string -> result EnrollmentClaims;
  (* token.Claims.Valid(): the time window of the standard claims *)
  claims_Valid : EnrollmentClaims -> option error;
  (* token.Method.Verify of the text's signature under the key *)
  method_Verify : string -> option string -> option error
}.

(** [Parser.ParseWithClaims] with [ValidateToken] as its key function: the
    text is decoded; the key function is asked for the key, and its error
    ends the parse (wrapped in a [ValidationError], whose text is the text
    of the error it wraps); then the claims are validated and the signature
    is verified, and the error of the signature, else that of the claims,
    is the error of the parse.  The token is used by the caller only when
    there is no error. *)
Definition ParseWithClaims (lib : JwtLib) (w : World) (tokenString : string)
  : M (result jwt_Token) :=
  match jwt_ParseUnverified lib tokenString with
  | Err e => ret (Err e)
  | Ok claims =>
      ' ((key, err), token) <-
        ValidateToken w (Some (mkToken (EnrollmentClaimsPtr (Some claims)))) ;;
      match err with
      | Some e => ret (Err (OtherError (Error e)))
      | None =>
          match token with
          | None => panic nilDeref
          | Some t =>
              let vErr :=
                match Claims t with
                | EnrollmentClaimsPtr (Some c) => claims_Valid lib c
                | _ => None
                end in
              match method_Verify lib tokenString key, vErr with
              | Some e, _ => ret (Err (OtherError (Error e)))
              | None, Some e => ret (Err e)
              | None, None => ret (Ok t)
              end
          end
      end
  end.

(** The [enrollmentClaims] pointer of [ParseToken] is the one the parser
    put into the token. *)
Definition claimsOf (t : jwt_Token) : option EnrollmentClaims :=
  match Claims t with
  | EnrollmentClaimsPtr c => c
  | OtherClaims => None
  end.

Definition ParseToken (lib : JwtLib) (w : World) (tokenStr : string)
  : M (option EnrollmentClaims * option jwt_Token * option error) :=
  let tokenStr := TrimSpace tokenStr in
  r <- ParseWithClaims lib w tokenStr ;;
  match r with
  | Err err => ret (None, None, Some err)
  | Ok jwtToken => ret (claimsOf jwtToken, Some jwtToken, None)
  end.

(** A library that reads one token text and accepts signatures under the
    key of the leaf certificate. *)
Definition labJwt : JwtLib :=
  {| jwt_ParseUnverified := fun s =>
       if String.eqb s "hdr.claims.sig"
       then Ok {| Issuer := "https://ctrl.example"; EnrollmentMethod := "ott";
                  Id := "jti-1"; SignatureCert := None |}
       else Err (OtherError "token contains an invalid number of segments");
     claims_Valid := fun _ => None;
     method_Verify := fun _ key =>
       match key with
       | Some "LEAF-KEY" => None
       | _ => Some (OtherError "crypto/ecdsa: verification error")
       end |}.

(** The issuer presents the leaf certificate and its CA. *)
Definition issuerWorld : World :=
  labWorld goodKey
    (fun _ => Ok {| StatusCode := 200; Status := "200 OK";
                    Body := ("", None); TLS := Some [leafCert; caCert] |})
    (fun _ => refused).

(** The run of the token method under [untrustedWorld] and [tofuWorld],
    piece by piece. *)
Definition pemKey : string := "pem:PEM[EC PRIVATE KEY]ASN1:P384".

Definition keyedConfig : Config := setKey (newConfig (flagsFor "ott" "")) pemKey.

Definition firstTurn (caPool : CertPool) (allowedCerts : list Certificate)
  : LoopState :=
  mkLoop keyedConfig caPool allowedCerts false true.

Definition enrollUrl : string :=
  "https://ctrl.example/enroll?method=ott&token=jti-1".

Definition ottAttempt (roots : option CertPool) : list event :=
  [EvLoadKey pemKey; EvHostname; EvCreateCSR;
   EvPost (Verify roots []) enrollUrl "text/plain"
     "PEM[CERTIFICATE REQUEST]CSR:edge-01"].

Definition bundleFetch : event :=
  EvGet (Verify (Some [leafCert]) [])
    "https://ctrl.example/.well-known/est/cacerts".

(** * Properties *)

(** ** The model on small inputs *)

Example TrimSpace_inner_blank : TrimSpace "  edge 01  " = "edge 01".
Proof. reflexivity. Qed.

Example TrimSpace_blank : TrimSpace "   " = "".
Proof. reflexivity. Qed.

(** White space is Unicode's: a text of no-break and ideographic spaces is
    blank, and such spaces are trimmed at both ends; a lone byte of their
    encodings is not white space. *)
Example TrimSpace_unicode_blank :
  TrimSpace (nbsp +++ " " +++ ideographicSpace) = "".
Proof. reflexivity. Qed.

Example TrimSpace_unicode_ends :
  TrimSpace (ideographicSpace +++ "ca.pem" +++ nbsp) = "ca.pem".
Proof. reflexivity. Qed.

Example TrimSpace_broken_encoding :
  TrimSpace (String (ascii_of_nat 160) " x ")
  = String (ascii_of_nat 160) " x".
Proof. reflexivity. Qed.

(** An override file named by a no-break space is no name: nothing is
    read. *)
Example overrideCAs_unicode_blank :
  overrideCAs tofuWorld (flagsWithCAs "ott" "" nbsp) [] = (Ret ([], []), []).
Proof. reflexivity. Qed.

Example Split_path : Split "error.cause.message" "."%char
                     = ["error"; "cause"; "message"].
Proof. reflexivity. Qed.

Example Search_absent_code :
  Search (Some jsonMessageOnly) ["error"; "code"] = None
  /\ Exists (Some jsonMessageOnly) ["error"; "message"] = true.
Proof. split; reflexivity. Qed.

Example Search_through_array :
  Search (Some (JObject [("error", JArray [JObject [("code", JString "A")];
                                            JNumber 7;
                                            JObject [("code", JString "B")]])]))
    ["error"; "code"]
  = Some (JArray [JString "A"; JString "B"]).
Proof. reflexivity. Qed.

Example AddCert_twice : AddCert (AddCert [] caCert) caCert = [caCert].
Proof. reflexivity. Qed.

(** The token method against a server whose chain is unknown and stays
    unknown: one attempt, one fetch, one retry, and the error of the retry
    comes back with the configuration. *)
Example Enroll_untrusted :
  Enroll untrustedWorld 2 (flagsFor "ott" "") []
  = (Ret (Some keyedConfig, Some unknownAuthority),
     EvGenerateKey :: ottAttempt None ++ [bundleFetch]
     ++ ottAttempt (Some [caCert])).
Proof. reflexivity. Qed.

(** Trust on first use: the retry under the fetched bundle succeeds. *)
Example Enroll_tofu :
  Enroll tofuWorld 2 (flagsFor "ott" "") []
  = (Ret (Some (setCA (setCert keyedConfig "pem:CERT-PEM") "pem:CA-DER"),
          None),
     EvGenerateKey :: ottAttempt None ++ [bundleFetch]
     ++ ottAttempt (Some [caCert])).
Proof. reflexivity. Qed.

(** An unknown method is an error at once: no exchange, no retry. *)
Example Enroll_unsupported :
  Enroll tofuWorld 2 (flagsFor "updb" "") []
  = (Ret (Some keyedConfig,
          Some (Fundamental "enrollment method 'updb' is not supported")),
     [EvGenerateKey]).
Proof. reflexivity. Qed.

(** ** Computations *)

Lemma gets_app (a b : list event) : gets (a ++ b) = gets a + gets b.
Proof. unfold gets. now rewrite filter_app, length_app. Qed.

Lemma posts_app (a b : list event) : posts (a ++ b) = posts a + posts b.
Proof. unfold posts. now rewrite filter_app, length_app. Qed.

Lemma post_ret {A} (a : A) (Q : outcome A -> list event -> Prop) :
  Q (Ret a) [] -> post (ret a) Q.
Proof. intros H h. exact H. Qed.

Lemma post_panic {A} (msg : string) (Q : outcome A -> list event -> Prop) :
  Q (Panic msg) [] -> post (panic msg) Q.
Proof. intros H h. exact H. Qed.

Lemma post_conseq {A} (m : M A) (Q1 Q2 : outcome A -> list event -> Prop) :
  post m Q1 -> (forall r evs, Q1 r evs -> Q2 r evs) -> post m Q2.
Proof. intros H HQ h. apply HQ, H. Qed.

Lemma post_bind {A B} (m : M A) (f : A -> M B)
  (Q1 : outcome A -> list event -> Prop)
  (Q : outcome B -> list event -> Prop) :
  post m Q1 ->
  (forall a e1, Q1 (Ret a) e1 -> post (f a) (fun r e2 => Q r (e1 ++ e2))) ->
  (forall msg e1, Q1 (Panic msg) e1 -> Q (Panic msg) e1) ->
  (forall e1, Q1 OutOfFuel e1 -> Q OutOfFuel e1) ->
  post (bind m f) Q.
Proof.
  intros Hm Hf Hp Ho h. unfold bind.
  specialize (Hm h). destruct (m h) as [[a | msg | ] e1]; simpl in Hm.
  - specialize (Hf a e1 Hm (h ++ e1)).
    destruct (f a (h ++ e1)) as [r e2]. exact Hf.
  - now apply Hp.
  - now apply Ho.
Qed.

Lemma post_bind_perform {A B} (e : event) (f : history -> A) (k : A -> M B)
  (Q : outcome B -> list event -> Prop) :
  (forall a, post (k a) (fun r e2 => Q r (e :: e2))) ->
  post (bind (perform e f) k) Q.
Proof.
  intros Hk h. unfold bind, perform.
  specialize (Hk (f h) (h ++ [e])).
  destruct (k (f h) (h ++ [e])) as [r e2]. exact Hk.
Qed.

Lemma post_bind_ret {A B} (a : A) (k : A -> M B)
  (Q : outcome B -> list event -> Prop) :
  post (k a) Q -> post (bind (ret a) k) Q.
Proof.
  intros Hk h. unfold bind, ret.
  specialize (Hk (h ++ [])). destruct (k a (h ++ [])) as [r e2]. exact Hk.
Qed.

Lemma post_bind_panic {A B} (msg : string) (k : A -> M B)
  (Q : outcome B -> list event -> Prop) :
  Q (Panic msg) [] -> post (bind (panic msg) k) Q.
Proof. intros H h. exact H. Qed.

Lemma post_bind_assert {B} (x : json) (k : string -> M B)
  (Q : outcome B -> list event -> Prop) :
  (forall s, post (k s) Q) -> (forall msg, Q (Panic msg) []) ->
  post (bind (assertString x) k) Q.
Proof.
  intros Hk Hp. destruct x; simpl;
    try (apply post_bind_panic, Hp). apply post_bind_ret, Hk.
Qed.

(** One step through a computation written with [bind]. *)
Ltac post_step :=
  lazymatch goal with
  | |- post (bind (perform _ _) _) _ => apply post_bind_perform; intro
  | |- post (bind (ret _) _) _ => apply post_bind_ret
  | |- post (bind (panic _) _) _ => apply post_bind_panic
  | |- post (bind (assertString _) _) _ =>
      apply post_bind_assert; [intro | intro]
  | |- post (bind (if ?c then _ else _) _) _ => destruct c
  | |- post (bind (match ?x with _ => _ end) _) _ => destruct x
  | |- post (ret _) _ => apply post_ret
  | |- post (panic _) _ => apply post_panic
  | |- post (if ?c then _ else _) _ => destruct c
  | |- post (match ?x with _ => _ end) _ => destruct x
  end.

Ltac strategy_leaf :=
  unfold strategyPost; cbn [gets posts filter isGet isPost length app];
  repeat split; try discriminate; try lia;
  try (intros ? ? [= <- _]; reflexivity).

Lemma enrollOTT_post (w : World) token cfg caPool :
  post (enrollOTT w token cfg caPool) (strategyPost cfg).
Proof.
  unfold enrollOTT, CreateCertificateRequest.
  repeat post_step; strategy_leaf.
Qed.

Lemma enrollCA_post (w : World) token cfg caPool :
  post (enrollCA w token cfg caPool) (strategyPost cfg).
Proof.
  unfold enrollCA, deref. repeat post_step; strategy_leaf.
Qed.

Lemma enrollCAAuto_post (w : World) enFlags cfg caPool :
  post (enrollCAAuto w enFlags cfg caPool) (strategyPost cfg).
Proof.
  unfold enrollCAAuto, deref. repeat post_step; strategy_leaf.
Qed.

Lemma strategy_tagged (m : M (Config * option error)) (cfg : Config) :
  post m (strategyPost cfg) ->
  post (r <- m ;; ret (r, false))
    (fun r evs =>
       r <> OutOfFuel /\ gets evs = 0 /\ posts evs <= 1
       /\ forall cfg' e c, r = Ret (cfg', e, c) -> ZtAPI cfg' = ZtAPI cfg).
Proof.
  intros Hm. eapply post_bind; [exact Hm | | |]; unfold strategyPost.
  - intros [cfg' e] e1 (_ & Hg & Hp & Hz). apply post_ret.
    rewrite app_nil_r. repeat split; try discriminate; try assumption.
    intros ? ? ? [= <- <- _]. now apply (Hz cfg' e).
  - intros msg e1 (_ & Hg & Hp & _).
    repeat split; try discriminate; assumption.
  - intros e1 (Hne & _). now contradiction Hne.
Qed.

Lemma strategy_post (w : World) enFlags cfg caPool :
  post (strategy w enFlags cfg caPool)
    (fun r evs =>
       r <> OutOfFuel /\ gets evs = 0 /\ posts evs <= 1
       /\ forall cfg' e c, r = Ret (cfg', e, c) -> ZtAPI cfg' = ZtAPI cfg).
Proof.
  unfold strategy.
  destruct (String.eqb _ "ott"); [apply strategy_tagged, enrollOTT_post |].
  destruct (String.eqb _ "ottca"); [apply strategy_tagged, enrollCA_post |].
  destruct (String.eqb _ "ca"); [apply strategy_tagged, enrollCAAuto_post |].
  apply post_ret. cbn. repeat split; try discriminate; try lia.
  now intros ? ? ? [= <- _ _].
Qed.

Lemma FetchCertificates_post (w : World) urlRoot rootCaPool :
  post (FetchCertificates w urlRoot rootCaPool)
    (fun r evs => r <> OutOfFuel /\ gets evs <= 1 /\ posts evs = 0).
Proof.
  unfold FetchCertificates. repeat post_step;
    cbn; repeat split; try discriminate; lia.
Qed.

Lemma prepareKey_post (w : World) enFlags cfg :
  post (prepareKey w enFlags cfg) offline.
Proof.
  unfold prepareKey, generateKey, MarshalECPrivateKey.
  repeat post_step; cbn; repeat split; discriminate.
Qed.

Lemma overrideCAs_post (w : World) enFlags :
  post (overrideCAs w enFlags) offline.
Proof.
  unfold overrideCAs. repeat post_step; cbn; repeat split; discriminate.
Qed.

Lemma existingCert_post (w : World) enFlags cfg :
  post (existingCert w enFlags cfg) offline.
Proof.
  unfold existingCert. repeat post_step; cbn; repeat split; discriminate.
Qed.

Lemma finish_post (w : World) cfg allowedCerts :
  post (finish w cfg allowedCerts) offline.
Proof.
  unfold finish. repeat post_step; cbn; repeat split; discriminate.
Qed.

(** One turn of the loop: it ends; it fetches only while the flag allows;
    and it hands on either a completed state or one whose flag it has just
    cleared. *)
Lemma loopBody_post (w : World) enFlags st :
  post (loopBody w enFlags st)
    (fun r evs =>
       r <> OutOfFuel /\ gets evs <= (if shouldFetchCerts st then 1 else 0) /\ posts evs <= 1
       /\ forall st', r = Ret (inl st') ->
            (enrollmentComplete st' = true /\ gets evs = 0)
            \/ (shouldFetchCerts st = true /\ shouldFetchCerts st' = false)).
Proof.
  unfold loopBody.
  eapply post_bind; [apply strategy_post | | |].
  - intros [[cfg enrollErr] complete] e1 (_ & Hg & Hp & _).
    destruct enrollErr as [e |].
    2: { apply post_ret. rewrite app_nil_r. repeat split;
         try discriminate; try lia.
         intros st' [= <-]. left. now split. }
    assert (Hret : post (ret (inr (Some cfg, Some e)) : M (LoopState + returned))
              (fun r e2 =>
                 r <> OutOfFuel /\ gets (e1 ++ e2) <= (if shouldFetchCerts st then 1 else 0)
                 /\ posts (e1 ++ e2) <= 1
                 /\ forall st', r = Ret (inl st') ->
                      (enrollmentComplete st' = true /\ gets (e1 ++ e2) = 0)
                      \/ (shouldFetchCerts st = true
                          /\ shouldFetchCerts st' = false))).
    { apply post_ret. rewrite app_nil_r. repeat split;
      try discriminate; lia. }
    destruct e as [op u inner | | | |]; try exact Hret.
    destruct inner; try exact Hret.
    destruct (shouldFetchCerts st); try exact Hret.
    unfold AddCertPtr. destruct (SignatureCert (Token enFlags)).
    2: { apply post_bind_panic. rewrite app_nil_r.
         repeat split; try discriminate; lia. }
    apply post_bind_ret.
    eapply post_bind; [apply FetchCertificates_post | | |].
    + intros certs e2 (_ & Hg2 & Hp2).
      destruct (addCerts _ _ certs) as [allowed' pool'].
      apply post_ret. rewrite app_nil_r, gets_app, posts_app.
      repeat split; try discriminate; try lia.
      intros st' [= <-]. right. now split.
    + intros msg e2 (_ & Hg2 & Hp2). rewrite gets_app, posts_app.
      repeat split; try discriminate; lia.
    + intros e2 (Hne & _). now contradiction Hne.
  - intros msg e1 (_ & Hg & Hp & _). repeat split; try discriminate; lia.
  - intros e1 (Hne & _). now contradiction Hne.
Qed.

(** The loop: with enough fuel it ends, and it stays within the fetches
    and turns its state allows. *)
Lemma enrollLoop_post (w : World) enFlags fuel :
  forall st,
    post (enrollLoop w fuel enFlags st)
      (fun r evs =>
         gets evs <= fetchesLeft st /\ posts evs <= turns st
         /\ (turns st <= fuel -> r <> OutOfFuel)).
Proof.
  induction fuel as [| fuel IH]; intros st; simpl;
    unfold turns, fetchesLeft;
    destruct (enrollmentComplete st) eqn:Hc.
  - apply post_ret. cbn. repeat split; try lia. discriminate.
  - intro h. cbn. repeat split; try lia.
    destruct (shouldFetchCerts st); lia.
  - apply post_ret. cbn. repeat split; try lia. discriminate.
  - eapply post_bind; [apply loopBody_post | | |].
    + intros [st' | out] e1 (_ & Hg & Hp & Hst).
      * eapply post_conseq; [apply IH |].
        intros r e2 (Hg2 & Hp2 & Hf2). rewrite gets_app, posts_app.
        unfold turns, fetchesLeft in *.
        destruct (Hst st' eq_refl) as [[Hc' Hg0] | [Hs Hs']].
        -- rewrite Hc' in *.
           destruct (shouldFetchCerts st);
             (split; [lia | split; [lia | intros _; apply Hf2; lia]]).
        -- rewrite Hs, Hs' in *.
           destruct (enrollmentComplete st');
             (split; [lia | split; [lia | intros ?; apply Hf2; lia]]).
      * apply post_ret. rewrite app_nil_r.
        destruct (shouldFetchCerts st);
          (split; [lia | split; [lia | discriminate]]).
    + intros msg e1 (_ & Hg & Hp & _).
      destruct (shouldFetchCerts st);
        (split; [lia | split; [lia | discriminate]]).
    + intros e1 (Hne & _). now contradiction Hne.
Qed.

Lemma Enroll_post (w : World) fuel enFlags :
  post (Enroll w fuel enFlags)
    (fun r evs =>
       gets evs <= 1 /\ posts evs <= 2 /\ (2 <= fuel -> r <> OutOfFuel)).
Proof.
  unfold Enroll, offline.
  eapply post_bind; [apply prepareKey_post | | |]; unfold offline.
  2: intros msg e1 (_ & -> & ->); repeat split; try lia; discriminate.
  2: intros e1 (Hne & _); now contradiction Hne.
  intros [cfg | out] e1 (_ & Hg1 & Hp1).
  2: { apply post_ret. rewrite app_nil_r, Hg1, Hp1.
       repeat split; try lia; discriminate. }
  unfold enrollWithKey.
  eapply post_bind; [apply overrideCAs_post | | |]; unfold offline.
  2: intros msg e2 (_ & Hg2 & Hp2); rewrite gets_app, posts_app;
     repeat split; try lia; discriminate.
  2: intros e2 (Hne & _); now contradiction Hne.
  intros [allowedCerts caPool] e2 (_ & Hg2 & Hp2).
  eapply post_bind; [apply existingCert_post | | |]; unfold offline.
  2: intros msg e3 (_ & Hg3 & Hp3); rewrite !gets_app, !posts_app;
     repeat split; try lia; discriminate.
  2: intros e3 (Hne & _); now contradiction Hne.
  intros [enFlags' cfg'] e3 (_ & Hg3 & Hp3).
  eapply post_bind; [apply enrollLoop_post | | |]; cbn [turns fetchesLeft
    enrollmentComplete shouldFetchCerts].
  - intros [st | out] e4 (Hg4 & Hp4 & Hf4).
    + eapply post_conseq; [apply finish_post |]. unfold offline.
      intros r e5 (Hne & Hg5 & Hp5). rewrite !gets_app, !posts_app.
      repeat split; try lia. now intros _.
    + apply post_ret. rewrite !gets_app, !posts_app. cbn [gets posts filter
        length]. repeat split; try lia. discriminate.
  - intros msg e4 (Hg4 & Hp4 & _). rewrite !gets_app, !posts_app.
    repeat split; try lia. discriminate.
  - intros e4 (Hg4 & Hp4 & Hf4). rewrite !gets_app, !posts_app.
    repeat split; try lia. intros Hfuel _. now apply (Hf4 Hfuel).
Qed.

(** ** The CA-bundle fetch *)

(** With a base URL that parses, the fetch performs its one GET, against
    the well-known path and under the pool it was given, and returns. *)
Lemma FetchCertificates_returns (w : World) urlRoot rootCaPool h u :
  url_Parse w urlRoot = Ok u ->
  let target :=
    url_String w (setPath u (path_Join w (Path u) ".well-known/est/cacerts")) in
  exists certs,
    FetchCertificates w urlRoot rootCaPool h
    = (Ret certs, [EvGet (Verify rootCaPool []) target]).
Proof.
  intros Hu target. unfold FetchCertificates. rewrite Hu.
  fold target. unfold bind, perform.
  destruct (http_Get w h (Verify rootCaPool []) target) as [resp | e].
  2: now exists [].
  destruct (Body resp) as [body [e |]]. 1: now exists [].
  destruct (is2xx (StatusCode resp)). 2: now exists [].
  destruct (fst (base64_DecodeString w body)) as [der |]. 2: now exists [].
  destruct (pkcs7_Parse w der) as [certs | e]; [now exists certs | now exists []].
Qed.

(** ** The dispatch of a strategy *)

Lemma strategy_keeps_endpoint (w : World) enFlags cfg caPool h cfg' e c evs :
  strategy w enFlags cfg caPool h = (Ret (cfg', e, c), evs) ->
  ZtAPI cfg' = ZtAPI cfg.
Proof.
  intros H. destruct (strategy_post w enFlags cfg caPool h) as (_ & _ & _ & Hz).
  rewrite H in Hz. now apply (Hz cfg' e c).
Qed.

(** Only the default case of the switch sets [enrollmentComplete], and its
    error is no transport error. *)
Lemma strategy_default_only (w : World) enFlags cfg caPool h cfg' e evs :
  strategy w enFlags cfg caPool h = (Ret (cfg', e, true), evs) ->
  exists msg, e = Some (Fundamental msg).
Proof.
  unfold strategy.
  destruct (String.eqb _ "ott"); [| destruct (String.eqb _ "ottca");
    [| destruct (String.eqb _ "ca")]].
  4: intros [= <- <- _]; eauto.
  all: unfold bind, ret.
  - destruct (enrollOTT _ _ _ _ _) as [[a | msg |] e1]; cbn; intros [=].
  - destruct (enrollCA _ _ _ _ _) as [[a | msg |] e1]; cbn; intros [=].
  - destruct (enrollCAAuto _ _ _ _ _) as [[a | msg |] e1]; cbn; intros [=].
Qed.

(** ** The loop of the orchestrator *)

Lemma enrollLoop_bootstrap (w : World) enFlags fuel st h cfg1 op u complete
  evs1 sc parsed :
  2 <= fuel ->
  enrollmentComplete st = false ->
  shouldFetchCerts st = true ->
  SignatureCert (Token enFlags) = Some sc ->
  url_Parse w (ZtAPI (lsCfg st)) = Ok parsed ->
  strategy w enFlags (lsCfg st) (lsCaPool st) h
  = (Ret (cfg1, Some (UrlError op u UnknownAuthorityError), complete), evs1) ->
  let fetch := EvGet (Verify (Some [sc]) []) (wellKnown w parsed) in
  exists certs,
    FetchCertificates w (ZtAPI cfg1) (Some [sc]) (h ++ evs1)
    = (Ret certs, [fetch])
    /\ forall r2 evs2,
         strategy w enFlags cfg1
           (snd (addCerts (lsAllowedCerts st) (lsCaPool st) certs))
           (h ++ evs1 ++ [fetch]) = (r2, evs2) ->
         enrollLoop w fuel enFlags st h
         = (afterRetry (snd (addCerts (lsAllowedCerts st) (lsCaPool st) certs))
              (fst (addCerts (lsAllowedCerts st) (lsCaPool st) certs)) r2,
            evs1 ++ [fetch] ++ evs2).
Proof.
  intros Hfuel Hc Hs Hsig Hu Hstrat fetch.
  assert (Hz : ZtAPI cfg1 = ZtAPI (lsCfg st))
    by (eapply strategy_keeps_endpoint; eassumption).
  assert (Hcomplete : complete = false).
  { destruct complete; [| reflexivity].
    destruct (strategy_default_only _ _ _ _ _ _ _ _ Hstrat) as [m [=]]. }
  subst complete.
  rewrite <- Hz in Hu.
  destruct (FetchCertificates_returns w (ZtAPI cfg1) (Some [sc]) (h ++ evs1)
              parsed Hu) as [certs Hfetch].
  exists certs. split; [exact Hfetch |].
  intros r2 evs2 Hretry.
  destruct fuel as [| [| fuel]]; try lia.
  cbn [enrollLoop]. rewrite Hc.
  unfold bind at 1. unfold loopBody at 1. unfold bind at 1.
  rewrite Hstrat. rewrite Hs, Hc. cbn [orb].
  unfold AddCertPtr. rewrite Hsig. unfold bind at 1. cbn [ret AddCert NewCertPool contains existsb].
  unfold bind at 1.
  rewrite app_nil_r. change (NewCertPool ++ [sc]) with [sc].
  rewrite Hfetch. fold fetch.
  destruct (addCerts (lsAllowedCerts st) (lsCaPool st) certs)
    as [allowed' pool'] eqn:Hadd.
  cbn [ret fst snd app enrollmentComplete] in *.
  unfold bind at 1. unfold loopBody at 1. unfold bind at 1.
  cbn [lsCfg lsCaPool lsAllowedCerts enrollmentComplete shouldFetchCerts].
  subst fetch. unfold wellKnown in *. cbn [app] in Hretry |- *.
  rewrite Hretry.
  destruct r2 as [[[cfg2 [e2 |]] c2] | msg |]; cbn;
    [destruct e2 as [? ? [] | | | |]; cbn | destruct fuel; cbn | |];
    rewrite ?app_nil_r, <- ?app_assoc; reflexivity.
Qed.

(** ** The trust pool *)





Lemma enrollLoop_reaches (w : World) enFlags fuel :
  forall st h st' evs,
    enrollLoop w fuel enFlags st h = (Ret (inl st'), evs) ->
    reaches w enFlags (st, h) (st', h ++ evs).
Proof.
  induction fuel as [| fuel IH]; intros st h st' evs; cbn [enrollLoop];
    destruct (enrollmentComplete st) eqn:Hc.
  - intros [= <- <-]. rewrite app_nil_r. constructor.
  - discriminate.
  - intros [= <- <-]. rewrite app_nil_r. constructor.
  - unfold bind at 1.
    destruct (loopBody w enFlags st h) as [[[st1 | out] | msg |] e1] eqn:Hbody;
      try discriminate.
    + destruct (enrollLoop w fuel enFlags st1 (h ++ e1)) as [r e2] eqn:Hrest.
      intros [= -> <-].
      eapply reaches_step; [econstructor; eassumption |].
      rewrite app_assoc. now apply IH.
Qed.

(** ** The bootstrap of trust *)

(** Key preparation leaves the endpoint of the configuration alone. *)
Lemma prepareKey_endpoint (w : World) enFlags cfg h cfg' evs :
  prepareKey w enFlags cfg h = (Ret (inl cfg'), evs) ->
  ZtAPI cfg' = ZtAPI cfg.
Proof.
  unfold prepareKey, generateKey, MarshalECPrivateKey, bind, perform, ret,
    panic.
  destruct (negb (isEmpty (TrimSpace (KeyFile enFlags)))).
  - destruct (os_Stat w h (KeyFile enFlags)) as [[info |] err].
    + destruct (negb (IsNotExist err)).
      * destruct (IsDir info); [discriminate |].
        destruct (filepath_Abs w _ (KeyFile enFlags)) as [absPath [e |]];
          [discriminate |].
        now intros [= <- _].
      * now intros [= <- _].
    + now intros [= <- _].
  - destruct (ecdsa_GenerateKey w h) as [[key |] err]; [| discriminate].
    destruct (x509_MarshalECPrivateKey w key) as [asnBytes e].
    destruct err; [discriminate |]. now intros [= <- _].
Qed.

(** Lines 156-159 leave the token and the endpoint alone. *)
Lemma existingCert_keeps (w : World) enFlags cfg h enFlags' cfg' evs :
  existingCert w enFlags cfg h = (Ret (enFlags', cfg'), evs) ->
  Token enFlags' = Token enFlags /\ ZtAPI cfg' = ZtAPI cfg.
Proof.
  unfold existingCert, bind, perform, ret.
  destruct (negb (isEmpty (CertFile enFlags))).
  - destruct (filepath_Abs w h (CertFile enFlags)) as [abs e].
    intros [= <- <- _]. now split.
  - intros [= <- <- _]. now split.
Qed.

(** Lines 211-220 read nothing and perform nothing. *)
Lemma finish_pure (w : World) cfg allowedCerts h :
  finish w cfg allowedCerts h = (fst (finish w cfg allowedCerts []), []).
Proof.
  unfold finish, ret. destruct (0 <? length allowedCerts)%nat; [| reflexivity].
  now destruct (nfx509_MarshalToPem w allowedCerts).
Qed.

(** [Enroll] is what its loop makes of the state lines 117-162 prepare:
    the [return] of line 207 as it is, the tail of lines 211-220 after a
    completed loop. *)
Lemma Enroll_through_loop (w : World) fuel enFlags h cfg e1 allowedCerts
  caPool e2 enFlags' cfg' e3 r e4 :
  prepareKey w enFlags (newConfig enFlags) h = (Ret (inl cfg), e1) ->
  overrideCAs w enFlags (h ++ e1) = (Ret (allowedCerts, caPool), e2) ->
  existingCert w enFlags cfg ((h ++ e1) ++ e2) = (Ret (enFlags', cfg'), e3) ->
  enrollLoop w fuel enFlags' (mkLoop cfg' caPool allowedCerts false true)
    (((h ++ e1) ++ e2) ++ e3) = (r, e4) ->
  Enroll w fuel enFlags h
  = (match r with
     | Ret (inr out) => Ret out
     | Ret (inl st) => fst (finish w (lsCfg st) (lsAllowedCerts st) [])
     | Panic msg => Panic msg
     | OutOfFuel => OutOfFuel
     end,
     e1 ++ e2 ++ e3 ++ e4).
Proof.
  intros Hprep Hca Hcert Hloop.
  unfold Enroll, bind. rewrite Hprep.
  unfold enrollWithKey, bind. rewrite Hca, Hcert, Hloop.
  destruct r as [[st | out] | msg |]; try reflexivity.
  - rewrite finish_pure. now rewrite app_nil_r.
  - unfold ret. now rewrite app_nil_r.
Qed.

(** C1, as stated, fails on a token that did not pass through
    [ValidateToken]: with a nil signature certificate the first attempt
    fails with an unknown-authority transport error, and then line 193 hands
    the nil certificate to [CertPool.AddCert], which panics.  The run is
    aborted with no CA-bundle fetch and no retry, and no error is returned. *)
Lemma Enroll_unsigned_token_panics :
  fst (strategy untrustedWorld (unsignedFlags "ott")
         (setKey (newConfig (unsignedFlags "ott")) pemKey) [] [EvGenerateKey])
  = Ret (setKey (newConfig (unsignedFlags "ott")) pemKey,
         Some unknownAuthority, false)
  /\ Enroll untrustedWorld 2 (unsignedFlags "ott") []
     = (Panic "adding nil Certificate to CertPool",
        EvGenerateKey :: ottAttempt None)
  /\ gets (EvGenerateKey :: ottAttempt None) = 0
  /\ posts (EvGenerateKey :: ottAttempt None) = 1.
Proof. repeat split. Qed.

(** C1. Bootstrap attempts per run never exceed one: whatever the world
    answers, a run of [Enroll] makes at most one CA-bundle fetch and at most
    two strategy exchanges, and two turns of fuel are enough for it to end.
    And for a validated token (its issuer parses, its signature certificate
    is there), when lines 117-159 get through (with the key prepared, the
    override file read and the certificate file noted) and the first
    attempt of the loop fails with a [url.Error] over
    [x509.UnknownAuthorityError]: the bundle is fetched once, from the
    well-known path under the issuer and under a pool that holds the token's
    signature certificate and nothing else; the strategy of the same token
    is tried once more, under the pool grown by the fetched certificates;
    and then the run of [Enroll] is over, whatever the retry answers.  Its
    events are those of lines 117-159, the first attempt, the one fetch and
    the retry, with exactly one GET among them.  A retry that succeeds
    hands the configuration to lines 211-220; a retry that fails, with a
    second unknown-authority error or any other, makes [Enroll] return that
    very error with the configuration; a retry that panics makes [Enroll]
    panic. *)
Theorem Enroll_bootstraps_trust_once (w : World) (enFlags : EnrollmentFlags) :
  (forall fuel h,
     gets (snd (Enroll w fuel enFlags h)) <= 1
     /\ posts (snd (Enroll w fuel enFlags h)) <= 2
     /\ (2 <= fuel -> fst (Enroll w fuel enFlags h) <> OutOfFuel))
  /\
  (forall fuel h cfg e1 allowedCerts caPool e2 enFlags' cfg' e3
          cfg1 op u complete evs1,
     2 <= fuel ->
     validated w (Token enFlags) ->
     prepareKey w enFlags (newConfig enFlags) h = (Ret (inl cfg), e1) ->
     overrideCAs w enFlags (h ++ e1) = (Ret (allowedCerts, caPool), e2) ->
     existingCert w enFlags cfg ((h ++ e1) ++ e2)
     = (Ret (enFlags', cfg'), e3) ->
     strategy w enFlags' cfg' caPool (((h ++ e1) ++ e2) ++ e3)
     = (Ret (cfg1, Some (UrlError op u UnknownAuthorityError), complete),
        evs1) ->
     exists sc parsed certs,
       SignatureCert (Token enFlags) = Some sc
       /\ url_Parse w (Issuer (Token enFlags)) = Ok parsed
       /\ Token enFlags' = Token enFlags
       /\ FetchCertificates w (Issuer (Token enFlags)) (Some [sc])
            ((((h ++ e1) ++ e2) ++ e3) ++ evs1)
          = (Ret certs, [EvGet (Verify (Some [sc]) []) (wellKnown w parsed)])
       /\ forall r2 evs2,
            strategy w enFlags' cfg1
              (snd (addCerts allowedCerts caPool certs))
              ((((h ++ e1) ++ e2) ++ e3) ++ evs1
               ++ [EvGet (Verify (Some [sc]) []) (wellKnown w parsed)])
            = (r2, evs2) ->
            snd (Enroll w fuel enFlags h)
            = e1 ++ e2 ++ e3 ++ evs1
              ++ [EvGet (Verify (Some [sc]) []) (wellKnown w parsed)] ++ evs2
            /\ gets (snd (Enroll w fuel enFlags h)) = 1
            /\ (forall cfg2 c2,
                  r2 = Ret (cfg2, None, c2) ->
                  fst (Enroll w fuel enFlags h)
                  = fst (finish w cfg2
                           (fst (addCerts allowedCerts caPool certs)) []))
            /\ (forall cfg2 e c2,
                  r2 = Ret (cfg2, Some e, c2) ->
                  fst (Enroll w fuel enFlags h) = Ret (Some cfg2, Some e))
            /\ (forall msg,
                  r2 = Panic msg ->
                  fst (Enroll w fuel enFlags h) = Panic msg)).
Proof.
  split.
  - intros fuel h. apply (Enroll_post w fuel enFlags h).
  - intros fuel h cfg e1 allowedCerts caPool e2 enFlags' cfg' e3
      cfg1 op u complete evs1 Hfuel [[parsed Hu] [sc Hsig]]
      Hprep Hca Hcert Hstrat.
    pose proof (prepareKey_endpoint _ _ _ _ _ _ Hprep) as Hz.
    destruct (existingCert_keeps _ _ _ _ _ _ _ Hcert) as [Htok Hz'].
    pose proof (strategy_keeps_endpoint _ _ _ _ _ _ _ _ _ Hstrat) as Hz1.
    assert (Hapi : ZtAPI cfg1 = Issuer (Token enFlags))
      by (rewrite Hz1, Hz', Hz; reflexivity).
    assert (Hapi' : ZtAPI cfg' = Issuer (Token enFlags))
      by (rewrite Hz', Hz; reflexivity).
    set (st := mkLoop cfg' caPool allowedCerts false true).
    set (h3 := ((h ++ e1) ++ e2) ++ e3) in *.
    destruct (enrollLoop_bootstrap w enFlags' fuel st h3 cfg1 op u complete
                evs1 sc parsed Hfuel eq_refl eq_refl)
      as [certs [Hfetch Hloop]].
    { now rewrite Htok. }
    { cbn [st lsCfg]. now rewrite Hapi'. }
    { exact Hstrat. }
    cbn [st lsAllowedCerts lsCaPool] in Hloop.
    rewrite Hapi in Hfetch.
    exists sc, parsed, certs.
    split; [exact Hsig |]. split; [exact Hu |]. split; [exact Htok |].
    split; [exact Hfetch |].
    intros r2 evs2 Hretry.
    rewrite (Enroll_through_loop w fuel enFlags h cfg e1 allowedCerts caPool
               e2 enFlags' cfg' e3 _ _ Hprep Hca Hcert (Hloop _ _ Hretry)).
    cbn [fst snd].
    split; [reflexivity |]. split.
    + pose proof (prepareKey_post w enFlags (newConfig enFlags) h)
        as (_ & Hg1 & _).
      rewrite Hprep in Hg1. cbn [snd] in Hg1.
      pose proof (overrideCAs_post w enFlags (h ++ e1)) as (_ & Hg2 & _).
      rewrite Hca in Hg2. cbn [snd] in Hg2.
      pose proof (existingCert_post w enFlags cfg ((h ++ e1) ++ e2))
        as (_ & Hg3 & _).
      rewrite Hcert in Hg3. cbn [snd] in Hg3.
      pose proof (strategy_post w enFlags' cfg' caPool h3) as (_ & Hg4 & _).
      rewrite Hstrat in Hg4. cbn [snd] in Hg4.
      match type of Hretry with
      | strategy ?w ?f ?c ?p ?hh = _ =>
          pose proof (strategy_post w f c p hh) as (_ & Hg5 & _)
      end.
      rewrite Hretry in Hg5. cbn [snd] in Hg5.
      rewrite !gets_app, Hg1, Hg2, Hg3, Hg4, Hg5. reflexivity.
    + split; [| split].
      * intros cfg2 c2 ->. reflexivity.
      * intros cfg2 e c2 ->. reflexivity.
      * intros msg ->. reflexivity.
Qed.

Lemma Enroll_bootstraps_trust_once_witness :
  Enroll untrustedWorld 2 (flagsFor "ott" "") []
  = (Ret (Some keyedConfig, Some unknownAuthority),
     [EvGenerateKey] ++ [] ++ [] ++ ottAttempt None ++ [bundleFetch]
     ++ ottAttempt (Some [caCert]))
  /\ gets (snd (Enroll untrustedWorld 2 (flagsFor "ott" "") [])) = 1.
Proof.
  assert (Hv : validated untrustedWorld (Token (flagsFor "ott" ""))).
  { split; eexists; reflexivity. }
  destruct (proj2 (Enroll_bootstraps_trust_once untrustedWorld
                     (flagsFor "ott" ""))
              2 [] keyedConfig [EvGenerateKey] [] [] []
              (flagsFor "ott" "") keyedConfig []
              keyedConfig "Post" "https://ctrl.example/enroll" false
              (ottAttempt None)
              (le_n 2) Hv eq_refl eq_refl eq_refl eq_refl)
    as (sc & parsed & certs & Hsc & Hu & _ & Hfetch & Hrun).
  injection Hsc as <-. injection Hu as <-.
  vm_compute in Hfetch. injection Hfetch as <-.
  destruct (Hrun (Ret (keyedConfig, Some unknownAuthority, false))
              (ottAttempt (Some [caCert])) eq_refl)
    as (Hevs & Hgets & _ & Herr & _).
  split; [| exact Hgets].
  rewrite (surjective_pairing (Enroll untrustedWorld 2 (flagsFor "ott" "") [])).
  rewrite Hevs, (Herr _ _ _ eq_refl). reflexivity.
Defined.



(** ** The CA-bundle fetch, again *)

(** C2, as the code has it.  When the base URL parses, the fetch performs
    one GET of the well-known path and returns a certificate sequence: never
    an error, never a panic.  The sequence is empty when the GET fails, when
    the body cannot be read, when the status is outside 200..299, when the
    decoder yields no bytes, and when the PKCS7 parser refuses the bytes it
    is given. *)
Theorem FetchCertificates_best_effort (w : World) urlRoot rootCaPool h u :
  url_Parse w urlRoot = Ok u ->
  exists certs,
    FetchCertificates w urlRoot rootCaPool h
    = (Ret certs, [EvGet (Verify rootCaPool []) (wellKnown w u)])
    /\ (forall e,
          http_Get w h (Verify rootCaPool []) (wellKnown w u) = Err e ->
          certs = [])
    /\ (forall resp,
          http_Get w h (Verify rootCaPool []) (wellKnown w u) = Ok resp ->
          (snd (Body resp) <> None -> certs = [])
          /\ (is2xx (StatusCode resp) = false -> certs = [])
          /\ (fst (base64_DecodeString w (fst (Body resp))) = None ->
              certs = [])
          /\ (forall der e,
                fst (base64_DecodeString w (fst (Body resp))) = Some der ->
                pkcs7_Parse w der = Err e -> certs = [])).
Proof.
  intros Hu. unfold FetchCertificates, wellKnown. rewrite Hu.
  unfold bind, perform.
  destruct (http_Get w h (Verify rootCaPool []) _) as [resp | e].
  2: { exists []. split; [reflexivity |]. split; [reflexivity |]. discriminate. }
  destruct (Body resp) as [body [e |]] eqn:Hbody.
  { exists []. split; [reflexivity |]. split; [discriminate |].
    intros ? [= <-]. now repeat split. }
  destruct (is2xx (StatusCode resp)) eqn:H2xx.
  2: { exists []. split; [reflexivity |]. split; [discriminate |].
       intros ? [= <-]. now repeat split. }
  destruct (fst (base64_DecodeString w body)) as [der |] eqn:Hdec.
  2: { exists []. split; [reflexivity |]. split; [discriminate |].
       intros ? [= <-]. now repeat split. }
  destruct (pkcs7_Parse w der) as [certs | e] eqn:Hparse.
  2: { exists []. split; [reflexivity |]. split; [discriminate |].
       intros ? [= <-]. now repeat split. }
  exists certs. split; [reflexivity |]. split; [discriminate |].
  intros ? [= <-]. rewrite Hbody, H2xx. cbn [fst snd]. rewrite Hdec.
  split; [intros Hn; now contradiction Hn |].
  split; [discriminate |]. split; [discriminate |].
  intros der' e [= <-]. rewrite Hparse. discriminate.
Qed.

Lemma FetchCertificates_best_effort_witness :
  FetchCertificates noBundleWorld "https://ctrl.example" (Some [leafCert]) []
  = (Ret [], [bundleFetch]).
Proof.
  destruct (FetchCertificates_best_effort noBundleWorld
              "https://ctrl.example" (Some [leafCert]) []
              {| Scheme := ""; Host := "https://ctrl.example"; Path := "" |}
              eq_refl)
    as (certs & Hrun & _ & Hresp).
  destruct (Hresp _ eq_refl) as (_ & Hstatus & _).
  rewrite (Hstatus eq_refl) in Hrun. exact Hrun.
Defined.

(** C2, as stated, fails: a base URL that does not parse makes the fetch
    panic, before any request is made. *)
Lemma FetchCertificates_panics_on_bad_url :
  FetchCertificates tofuWorld ":8441" (Some [leafCert]) []
  = (Panic "could not parse base url to retrieve CA store", []).
Proof. reflexivity. Qed.

(** The error of the decoder is dropped (line 457) and only the bytes are
    tested: bytes that come with an error are parsed all the same. *)
Lemma FetchCertificates_ignores_decode_error :
  snd (base64_DecodeString trailingGarbageWorld "PKCS7!") <> None
  /\ FetchCertificates trailingGarbageWorld "https://ctrl.example"
       (Some [leafCert]) []
     = (Ret [caCert], [bundleFetch]).
Proof. split; [discriminate | reflexivity]. Qed.

(** ** Responses *)

(** C4, as stated, fails for the token-based strategy: the body is read
    before the status is looked at (lines 273-277), so a response with status
    200 whose body cannot be read makes [enrollOTT] return an error, and no
    certificate is stored. *)
Lemma enrollOTT_ok_response_unread_body :
  (exists resp,
     http_Post truncatedWorld
       [EvGenerateKey; EvLoadKey pemKey; EvHostname; EvCreateCSR]
       (Verify None []) enrollUrl "text/plain"
       "PEM[CERTIFICATE REQUEST]CSR:edge-01" = Ok resp
     /\ StatusCode resp = StatusOK)
  /\ enrollOTT truncatedWorld (claimsFor "ott") keyedConfig [] [EvGenerateKey]
     = (Ret (keyedConfig,
             Some (Fundamental
                     "enroll error: 200 OK: could not read body: CERT-")),
        ottAttempt None)
  /\ Cert (ID keyedConfig) = "".
Proof.
  split; [| split]; [| reflexivity | reflexivity].
  eexists. split; reflexivity.
Qed.

(** C4. What a response with status 200 to the POST of the enrollment URL
    makes of each strategy.  The two CA-based strategies return a nil error
    and the configuration as it was.  The token-based strategy returns a nil
    error exactly when the body of the response was read without an error;
    then the certificate of the configuration is [pem:] followed by that
    body, and the key, the CA bundle and the endpoint are as they were.
    When the body could not be read it returns the configuration untouched
    with an error naming the status and the bytes read.  In no case is the
    error a transport error.  The hypotheses say that the exchange took
    place: the key or the identity was loaded, the request was built and
    the POST was answered. *)
Theorem ok_response_outcome (w : World) :
  (forall token cfg caPool h pk hostname e1 request e2 csr resp,
     identity_LoadKey w h (Key (ID cfg)) = Ok pk ->
     os_Hostname w (h ++ [EvLoadKey (Key (ID cfg))]) = (hostname, e1) ->
     certtools_NewCertRequest w hostname = (Some request, e2) ->
     x509_CreateCertificateRequest w
       (h ++ [EvLoadKey (Key (ID cfg)); EvHostname]) request pk = Ok csr ->
     http_Post w (h ++ [EvLoadKey (Key (ID cfg)); EvHostname; EvCreateCSR])
       (Verify (useSystemCasIfEmpty caPool) []) (EnrolmentUrl w token)
       "text/plain" (pem_EncodeToMemory w "CERTIFICATE REQUEST" csr)
     = Ok resp ->
     StatusCode resp = StatusOK ->
     exists cfg' err,
       enrollOTT w token cfg caPool h
       = (Ret (cfg', err),
          [EvLoadKey (Key (ID cfg)); EvHostname; EvCreateCSR;
           EvPost (Verify (useSystemCasIfEmpty caPool) [])
             (EnrolmentUrl w token) "text/plain"
             (pem_EncodeToMemory w "CERTIFICATE REQUEST" csr)])
       /\ (err = None <-> snd (Body resp) = None)
       /\ (snd (Body resp) = None ->
           Cert (ID cfg') = "pem:" +++ fst (Body resp)
           /\ Key (ID cfg') = Key (ID cfg)
           /\ CA (ID cfg') = CA (ID cfg)
           /\ ZtAPI cfg' = ZtAPI cfg)
       /\ (snd (Body resp) <> None ->
           cfg' = cfg
           /\ err = Some (Fundamental
                            ("enroll error: " +++ Status resp
                             +++ ": could not read body: "
                             +++ fst (Body resp)))))
  /\ (forall token cfg caPool h clientCert resp,
        identity_LoadIdentity w h (ID cfg) = Ok (Some clientCert) ->
        http_Post w (h ++ [EvLoadIdentity (ID cfg)])
          (Verify (useSystemCasIfEmpty caPool) [clientCert])
          (EnrolmentUrl w token) "text/plain" "" = Ok resp ->
        StatusCode resp = StatusOK ->
        enrollCA w token cfg caPool h
        = (Ret (cfg, None),
           [EvLoadIdentity (ID cfg);
            EvPost (Verify (useSystemCasIfEmpty caPool) [clientCert])
              (EnrolmentUrl w token) "text/plain" ""]))
  /\ (forall enFlags cfg caPool h clientCert resp,
        identity_LoadIdentity w h (ID cfg) = Ok (Some clientCert) ->
        http_Post w (h ++ [EvLoadIdentity (ID cfg)])
          (Verify (useSystemCasIfEmpty caPool) [clientCert])
          (EnrolmentUrl w (Token enFlags)) "application/json"
          (namedBody w enFlags) = Ok resp ->
        StatusCode resp = StatusOK ->
        enrollCAAuto w enFlags cfg caPool h
        = (Ret (cfg, None),
           [EvLoadIdentity (ID cfg);
            EvPost (Verify (useSystemCasIfEmpty caPool) [clientCert])
              (EnrolmentUrl w (Token enFlags)) "application/json"
              (namedBody w enFlags)])).
Proof.
  split; [| split].
  - intros token cfg caPool h pk hostname e1 request e2 csr resp
      Hkey Hhost Hreq Hcsr Hpost Hstatus.
    unfold enrollOTT, CreateCertificateRequest, bind, perform.
    rewrite Hkey, Hhost, Hreq. rewrite <- !app_assoc. cbn [app].
    rewrite Hcsr, Hpost.
    destruct (Body resp) as [body [e |]]; cbn [fst snd].
    + do 2 eexists. split; [reflexivity |].
      split; [split; discriminate |].
      split; [discriminate |]. intros _. split; reflexivity.
    + rewrite Hstatus. do 2 eexists. split; [reflexivity |].
      split; [split; reflexivity |].
      split; [intros _; now repeat split |].
      intros Hn. now contradiction Hn.
  - intros token cfg caPool h clientCert resp Hid Hpost Hstatus.
    unfold enrollCA, deref, bind, perform, ret.
    rewrite Hid. rewrite app_nil_r. rewrite Hpost, Hstatus. reflexivity.
  - intros enFlags cfg caPool h clientCert resp Hid Hpost Hstatus.
    unfold enrollCAAuto, deref, bind, perform, ret.
    rewrite Hid. rewrite app_nil_r. rewrite Hpost, Hstatus. reflexivity.
Qed.

Lemma ok_response_outcome_witness :
  (exists cfg',
     enrollOTT (serverWorld 200 "200 OK" "CERT-PEM") (claimsFor "ott")
       keyedConfig [] [EvGenerateKey]
     = (Ret (cfg', None), ottAttempt None)
     /\ Cert (ID cfg') = "pem:CERT-PEM"
     /\ Cert (ID keyedConfig) = ""
     /\ Key (ID cfg') = pemKey)
  /\ (exists err,
        enrollOTT truncatedWorld (claimsFor "ott") keyedConfig []
          [EvGenerateKey]
        = (Ret (keyedConfig, Some err), ottAttempt None))
  /\ fst (enrollCA (serverWorld 200 "200 OK" "") (claimsFor "ottca")
            keyedConfig [] [EvGenerateKey])
     = Ret (keyedConfig, None)
  /\ fst (enrollCAAuto (serverWorld 200 "200 OK" "") (flagsFor "ca" "")
            keyedConfig [] [EvGenerateKey])
     = Ret (keyedConfig, None).
Proof.
  split; [| split; [| split]].
  - destruct (proj1 (ok_response_outcome (serverWorld 200 "200 OK" "CERT-PEM"))
               (claimsFor "ott") keyedConfig [] [EvGenerateKey]
               pemKey "edge-01" None "edge-01" None "CSR:edge-01"
               {| StatusCode := 200; Status := "200 OK";
                  Body := ("CERT-PEM", None); TLS := None |}
               eq_refl eq_refl eq_refl eq_refl eq_refl eq_refl)
      as (cfg' & err & Hrun & Herr & Hread & _).
    exists cfg'.
    rewrite (proj2 Herr eq_refl) in Hrun.
    destruct (Hread eq_refl) as (Hcert & Hkey & _).
    split; [exact Hrun |]. split; [exact Hcert |].
    split; [reflexivity | exact Hkey].
  - destruct (proj1 (ok_response_outcome truncatedWorld)
               (claimsFor "ott") keyedConfig [] [EvGenerateKey]
               pemKey "edge-01" None "edge-01" None "CSR:edge-01"
               {| StatusCode := 200; Status := "200 OK";
                  Body := ("CERT-", Some (OtherError "unexpected EOF"));
                  TLS := None |}
               eq_refl eq_refl eq_refl eq_refl eq_refl eq_refl)
      as (cfg' & err & Hrun & _ & _ & Hunread).
    destruct (Hunread ltac:(discriminate)) as (-> & ->).
    eexists. exact Hrun.
  - rewrite (proj1 (proj2 (ok_response_outcome (serverWorld 200 "200 OK" "")))
               (claimsFor "ottca") keyedConfig [] [EvGenerateKey]
               "CLIENT-CERT"
               {| StatusCode := 200; Status := "200 OK";
                  Body := ("", None); TLS := None |}
               eq_refl eq_refl eq_refl).
    reflexivity.
  - rewrite (proj2 (proj2 (ok_response_outcome (serverWorld 200 "200 OK" "")))
               (flagsFor "ca" "") keyedConfig [] [EvGenerateKey]
               "CLIENT-CERT"
               {| StatusCode := 200; Status := "200 OK";
                  Body := ("", None); TLS := None |}
               eq_refl eq_refl eq_refl).
    reflexivity.
Defined.

(** What [enrollCA] makes of the status of a response. *)
Lemma enrollCA_by_status (w : World) token cfg caPool h clientCert resp :
  identity_LoadIdentity w h (ID cfg) = Ok (Some clientCert) ->
  http_Post w (h ++ [EvLoadIdentity (ID cfg)])
    (Verify (useSystemCasIfEmpty caPool) [clientCert])
    (EnrolmentUrl w token) "text/plain" "" = Ok resp ->
  fst (enrollCA w token cfg caPool h)
  = Ret (cfg,
         if (StatusCode resp =? StatusOK)%Z then None
         else if (StatusCode resp =? StatusConflict)%Z
              then Some alreadyEnrolled
              else Some (Fundamental ("enroll error: " +++ Status resp))).
Proof.
  intros Hid Hpost. unfold enrollCA, deref, bind, perform, ret.
  rewrite Hid, app_nil_r, Hpost.
  destruct (StatusCode resp =? StatusOK)%Z; [reflexivity |].
  now destruct (StatusCode resp =? StatusConflict)%Z.
Qed.

(** For [enrollCA], the already-enrolled error answers status 409 and
    nothing else. *)
Lemma enrollCA_conflict_iff (w : World) token cfg caPool h clientCert resp :
  identity_LoadIdentity w h (ID cfg) = Ok (Some clientCert) ->
  http_Post w (h ++ [EvLoadIdentity (ID cfg)])
    (Verify (useSystemCasIfEmpty caPool) [clientCert])
    (EnrolmentUrl w token) "text/plain" "" = Ok resp ->
  fst (enrollCA w token cfg caPool h) = Ret (cfg, Some alreadyEnrolled)
  <-> StatusCode resp = StatusConflict.
Proof.
  intros Hid Hpost. rewrite (enrollCA_by_status _ _ _ _ _ _ _ Hid Hpost).
  destruct (StatusCode resp =? StatusOK)%Z eqn:Hok.
  - apply Z.eqb_eq in Hok. rewrite Hok. split; discriminate.
  - destruct (StatusCode resp =? StatusConflict)%Z eqn:Hconflict.
    + apply Z.eqb_eq in Hconflict. now split.
    + apply Z.eqb_neq in Hconflict. split; [intros [=] | contradiction].
Qed.

(** So it is for [enrollCAAuto]. *)
Lemma enrollCAAuto_conflict_iff (w : World) enFlags cfg caPool h clientCert
  resp :
  identity_LoadIdentity w h (ID cfg) = Ok (Some clientCert) ->
  http_Post w (h ++ [EvLoadIdentity (ID cfg)])
    (Verify (useSystemCasIfEmpty caPool) [clientCert])
    (EnrolmentUrl w (Token enFlags)) "application/json"
    (namedBody w enFlags) = Ok resp ->
  fst (enrollCAAuto w enFlags cfg caPool h) = Ret (cfg, Some alreadyEnrolled)
  <-> StatusCode resp = StatusConflict.
Proof.
  intros Hid Hpost. unfold enrollCAAuto, deref, bind at 1, perform.
  rewrite Hid. unfold bind at 1, ret. rewrite app_nil_r.
  unfold bind at 1. rewrite Hpost.
  destruct (StatusCode resp =? StatusOK)%Z eqn:Hok; cbn [negb].
  { apply Z.eqb_eq in Hok. rewrite Hok. split; discriminate. }
  destruct (StatusCode resp =? StatusConflict)%Z eqn:Hconflict.
  { apply Z.eqb_eq in Hconflict. now split. }
  apply Z.eqb_neq in Hconflict. split; [| contradiction].
  destruct (Body resp) as [body [e |]]; [cbn; intros [=] |].
  destruct (gabs_ParseJSON w body) as [object | e]; [| cbn; intros [=]].
  destruct (Data (SearchPath (Some object) "error.code"));
    try (cbn; discriminate).
  destruct (Data (SearchPath (Some object) "error.message"));
    cbn; intros [=].
Qed.

(** C5, where the code departs from it.  [enrollCAAuto] is answered 500
    with the body [{}]: the status is neither 200 nor 409, yet no error is
    produced; the unchecked assertion on the absent [error.code] panics. *)
Lemma enrollCAAuto_other_status_panics :
  enrollCAAuto (serverWorld 500 "500 Internal Server Error" "{}")
    (flagsFor "ca" "") keyedConfig [] [EvGenerateKey]
  = (Panic "interface conversion: interface {} is nil, not string",
     [EvLoadIdentity (ID keyedConfig);
      EvPost (Verify None ["CLIENT-CERT"])
        "https://ctrl.example/enroll?method=ca&token=jti-1"
        "application/json" ""]).
Proof. reflexivity. Qed.

(** C6, where the code departs from it.  The server rejects with the body
    [{"error":{"message":"bad csr"}}]: [error.message] is there and
    [error.code] is not.  Both strategies panic on the unchecked assertion
    of the absent code to a string. *)
Lemma error_body_without_code_panics :
  gabs_ParseJSON (serverWorld 400 "400 Bad Request" bodyMessageOnly)
    bodyMessageOnly = Ok jsonMessageOnly
  /\ fst (enrollOTT (serverWorld 400 "400 Bad Request" bodyMessageOnly)
            (claimsFor "ott") keyedConfig [] [EvGenerateKey])
     = Panic "interface conversion: interface {} is nil, not string"
  /\ fst (enrollCAAuto (serverWorld 400 "400 Bad Request" bodyMessageOnly)
            (flagsFor "ca" "") keyedConfig [] [EvGenerateKey])
     = Panic "interface conversion: interface {} is nil, not string".
Proof. repeat split. Qed.

(** With the code present the same rejection is reported as an error. *)
Lemma error_body_with_code_is_reported :
  fst (enrollOTT (serverWorld 400 "400 Bad Request" bodyCodeMessage)
         (claimsFor "ott") keyedConfig [] [EvGenerateKey])
  = Ret (keyedConfig,
         Some (Fundamental
           "enroll error: 400 Bad Request - code: INVALID - message: bad csr - cause: ")).
Proof. reflexivity. Qed.

(** ** Key preparation *)

(** With no key file given, a failure of key generation is never
    returned: the nil key is marshalled before the error is looked at. *)
Lemma failed_keygen_panics (w : World) fuel enFlags h e :
  isEmpty (TrimSpace (KeyFile enFlags)) = true ->
  ecdsa_GenerateKey w h = (None, Some e) ->
  Enroll w fuel enFlags h = (Panic nilDeref, [EvGenerateKey]).
Proof.
  intros Hblank Hgen.
  unfold Enroll, prepareKey, generateKey, MarshalECPrivateKey, bind, perform.
  rewrite Hblank. cbn [negb]. now rewrite Hgen.
Qed.

(** C7, where the code departs from it.  No key file is given and the
    random source fails: [Enroll] panics, on the nil key, and returns no
    error.  (No network call is made.) *)
Lemma Enroll_panics_without_entropy :
  ecdsa_GenerateKey noEntropyWorld []
  = (None, Some (OtherError "read /dev/urandom: input/output error"))
  /\ Enroll noEntropyWorld 2 (flagsFor "ott" "") []
     = (Panic nilDeref, [EvGenerateKey]).
Proof. split; reflexivity. Qed.

(** The early returns of key preparation hand back no configuration. *)
Lemma prepareKey_returns_no_config (w : World) enFlags cfg h c e evs :
  prepareKey w enFlags cfg h = (Ret (inr (c, e)), evs) -> c = None.
Proof.
  unfold prepareKey, generateKey, MarshalECPrivateKey, bind, perform, ret.
  destruct (negb _).
  - destruct (os_Stat w h (KeyFile enFlags)) as [[info |] err];
      [| intros [=]].
    destruct (negb (IsNotExist err)); [| intros [=]].
    destruct (IsDir info); [now intros [= <- _ _] |].
    destruct (filepath_Abs w _ _) as [absPath [fileErr |]];
      [now intros [= <- _ _] | intros [=]].
  - destruct (ecdsa_GenerateKey w h) as [[key |] [err |]];
      try discriminate.
    destruct (x509_MarshalECPrivateKey w key). now intros [= <- _ _].
    destruct (x509_MarshalECPrivateKey w key). intros [=].
Qed.

(** Nor does the failure to marshal the CA bundle. *)
Lemma finish_returns_no_config (w : World) cfg allowedCerts h c e evs :
  finish w cfg allowedCerts h = (Ret (c, Some e), evs) -> c = None.
Proof.
  unfold finish, ret.
  destruct (0 <? length allowedCerts)%nat; [| intros [=]].
  destruct (nfx509_MarshalToPem w allowedCerts);
    [intros [=] | now intros [= <- _ _]].
Qed.

(** C3, where the code departs from it.  The server rejects the request
    with status 500: [Enroll] returns the error together with the
    configuration it was filling in, which holds the generated private key
    and no certificate. *)
Lemma Enroll_returns_config_with_error :
  Enroll (serverWorld 500 "500 Internal Server Error" "oops") 2
    (flagsFor "ott" "") []
  = (Ret (Some keyedConfig,
          Some (Fundamental
            "enroll error: 500 Internal Server Error: could not parse body: oops")),
     EvGenerateKey :: ottAttempt None)
  /\ Key (ID keyedConfig) = pemKey
  /\ Cert (ID keyedConfig) = "".
Proof. repeat split. Qed.

(** C10. A key reference that is not blank and names no file is taken for
    an engine reference: key preparation stats the path once, resolves
    nothing, returns no error, and stores the reference as it was given in
    the key field; [Enroll] goes on from there with the rest of the run. *)
Theorem engine_reference_kept_verbatim (w : World) fuel enFlags h stat op path :
  isEmpty (TrimSpace (KeyFile enFlags)) = false ->
  os_Stat w h (KeyFile enFlags) = (stat, Some (ErrNotExist op path)) ->
  prepareKey w enFlags (newConfig enFlags) h
  = (Ret (inl (setKey (newConfig enFlags) (KeyFile enFlags))),
     [EvStat (KeyFile enFlags)])
  /\ Key (ID (setKey (newConfig enFlags) (KeyFile enFlags))) = KeyFile enFlags
  /\ Enroll w fuel enFlags h
     = (fst (enrollWithKey w fuel enFlags
               (setKey (newConfig enFlags) (KeyFile enFlags))
               (h ++ [EvStat (KeyFile enFlags)])),
        EvStat (KeyFile enFlags)
        :: snd (enrollWithKey w fuel enFlags
                  (setKey (newConfig enFlags) (KeyFile enFlags))
                  (h ++ [EvStat (KeyFile enFlags)]))).
Proof.
  intros Hgiven Hstat.
  assert (Hprep : prepareKey w enFlags (newConfig enFlags) h
                  = (Ret (inl (setKey (newConfig enFlags) (KeyFile enFlags))),
                     [EvStat (KeyFile enFlags)])).
  { unfold prepareKey, bind, perform. rewrite Hgiven. cbn [negb].
    cbv beta. rewrite Hstat. cbn. now destruct stat. }
  split; [exact Hprep |]. split; [reflexivity |].
  unfold Enroll, bind. rewrite Hprep.
  now destruct (enrollWithKey _ _ _ _ _).
Qed.

Lemma engine_reference_kept_verbatim_witness :
  Enroll tofuWorld 2 (flagsFor "ott" "pkcs11:slot0") []
  = (Ret (Some {| ZtAPI := "https://ctrl.example";
                  ID := {| Key := "pkcs11:slot0"; Cert := "pem:CERT-PEM";
                           CA := "pem:CA-DER" |} |}, None),
     [EvStat "pkcs11:slot0"; EvLoadKey "pkcs11:slot0"; EvHostname;
      EvCreateCSR;
      EvPost (Verify None []) enrollUrl "text/plain"
        "PEM[CERTIFICATE REQUEST]CSR:edge-01";
      bundleFetch; EvLoadKey "pkcs11:slot0"; EvHostname; EvCreateCSR;
      EvPost (Verify (Some [caCert]) []) enrollUrl "text/plain"
        "PEM[CERTIFICATE REQUEST]CSR:edge-01"]).
Proof.
  destruct (engine_reference_kept_verbatim tofuWorld 2
              (flagsFor "ott" "pkcs11:slot0") [] None "stat" "pkcs11:slot0"
              eq_refl eq_refl) as (_ & _ & Hrun).
  rewrite Hrun. reflexivity.
Defined.

(** ** Token validation *)

(** C8. A token whose claims carry an empty issuer is refused with the
    empty-issuer error, the claims are left as they were, and nothing was
    performed to get there: no event at all, so no network call, and the
    GET of [FetchServerCert] in particular was not made. *)
Theorem ValidateToken_empty_issuer (w : World) claims h :
  Issuer claims = "" ->
  ValidateToken w (Some (mkToken (EnrollmentClaimsPtr (Some claims)))) h
  = (Ret ((None,
           Some (Fundamental "could not validate token, issues is empty")),
          Some (mkToken (EnrollmentClaimsPtr (Some claims)))),
     []).
Proof.
  intros Hissuer. unfold ValidateToken. cbn [Claims].
  now rewrite Hissuer.
Qed.

Lemma ValidateToken_empty_issuer_witness :
  ValidateToken tofuWorld
    (Some (mkToken (EnrollmentClaimsPtr (Some emptyIssuerClaims)))) []
  = (Ret ((None,
           Some (Fundamental "could not validate token, issues is empty")),
          Some (mkToken (EnrollmentClaimsPtr (Some emptyIssuerClaims)))),
     []).
Proof.
  exact (ValidateToken_empty_issuer tofuWorld emptyIssuerClaims [] eq_refl).
Defined.

(** A token that [ValidateToken] lets through is [validated]: this is what
    the bootstrap of [Enroll] relies on. *)
Lemma ValidateToken_validates (w : World) claims h key token' evs :
  ValidateToken w (Some (mkToken (EnrollmentClaimsPtr (Some claims)))) h
  = (Ret ((Some key, None), token'), evs) ->
  exists claims',
    token' = Some (mkToken (EnrollmentClaimsPtr (Some claims')))
    /\ Issuer claims' = Issuer claims
    /\ validated w claims'.
Proof.
  unfold ValidateToken. cbn [Claims].
  destruct (isEmpty (Issuer claims)); [intros [=] |].
  destruct (url_Parse w (Issuer claims)) as [u | e] eqn:Hu; [| intros [=]].
  unfold bind.
  destruct (FetchServerCert w (Issuer claims) h) as [[[cert err] | msg |] e1];
    try discriminate.
  destruct err as [e |], cert as [c |]; cbn; intros [=]; subst.
  exists (setSignatureCert claims (Some c)).
  split; [reflexivity |]. split; [reflexivity |].
  split; [exists u; exact Hu | exists c; reflexivity].
Qed.

(** ** The return of [Enroll] *)

(** What the loop returns at line 207 is what [Enroll] returns. *)
Lemma enrollWithKey_returns_loop_return (w : World) fuel enFlags cfg h
  allowedCerts caPool e1 enFlags' cfg' e2 out e3 :
  overrideCAs w enFlags h = (Ret (allowedCerts, caPool), e1) ->
  existingCert w enFlags cfg (h ++ e1) = (Ret (enFlags', cfg'), e2) ->
  enrollLoop w fuel enFlags' (mkLoop cfg' caPool allowedCerts false true)
    ((h ++ e1) ++ e2) = (Ret (inr out), e3) ->
  enrollWithKey w fuel enFlags cfg h = (Ret out, e1 ++ e2 ++ e3).
Proof.
  intros Hca Hcert Hloop. unfold enrollWithKey, bind at 1. rewrite Hca.
  unfold bind at 1. rewrite Hcert. unfold bind, ret. rewrite Hloop.
  now rewrite app_nil_r.
Qed.

(** * Further properties of the enrollment code *)

(** ** What a run performs on the network *)

Lemma post_and {A} (m : M A) (Q1 Q2 : outcome A -> list event -> Prop) :
  post m Q1 -> post m Q2 -> post m (fun r evs => Q1 r evs /\ Q2 r evs).
Proof. intros H1 H2 h. split; [apply H1 | apply H2]. Qed.

(** A property of every event passes through [bind], provided the
    continuation has it for the results the first part can give. *)
Lemma post_events_bind {A B} (m : M A) (f : A -> M B) (P : event -> Prop)
  (R : A -> Prop) :
  post m (fun r evs => Forall P evs /\ forall a, r = Ret a -> R a) ->
  (forall a, R a -> post (f a) (fun _ evs => Forall P evs)) ->
  post (bind m f) (fun _ evs => Forall P evs).
Proof.
  intros Hm Hf. eapply post_bind; [exact Hm | | |]; cbn beta.
  - intros a e1 [He1 Ha]. eapply post_conseq; [apply Hf, Ha; reflexivity |].
    intros r e2 He2. now apply Forall_app.
  - now intros msg e1 [He1 _].
  - now intros e1 [He1 _].
Qed.

Ltac events_leaf :=
  repeat (apply Forall_cons; [cbn; try exact I; try (split; [reflexivity | discriminate]) |]);
  try apply Forall_nil.

Ltac keeps_leaf :=
  unfold keepsConfig;
  try discriminate;
  try (intros ? ? [= <- <-]; cbn;
       repeat split; try reflexivity; try (intros Hn; now contradiction Hn)).

Lemma enrollOTT_full (w : World) token cfg caPool :
  post (enrollOTT w token cfg caPool)
    (fun r evs => Forall (postsTo w token) evs /\ keepsConfig cfg r).
Proof.
  unfold enrollOTT, CreateCertificateRequest.
  repeat post_step; (split; [events_leaf | keeps_leaf]).
Qed.

Lemma enrollCA_full (w : World) token cfg caPool :
  post (enrollCA w token cfg caPool)
    (fun r evs =>
       Forall (postsTo w token) evs
       /\ forall cfg' e, r = Ret (cfg', e) -> cfg' = cfg).
Proof.
  unfold enrollCA, deref.
  repeat post_step;
    (split; [events_leaf | try discriminate; now intros ? ? [= <- _]]).
Qed.

Lemma enrollCAAuto_full (w : World) enFlags cfg caPool :
  post (enrollCAAuto w enFlags cfg caPool)
    (fun r evs =>
       Forall (postsTo w (Token enFlags)) evs
       /\ forall cfg' e, r = Ret (cfg', e) -> cfg' = cfg).
Proof.
  unfold enrollCAAuto, deref.
  repeat post_step;
    (split; [events_leaf | try discriminate; now intros ? ? [= <- _]]).
Qed.

Lemma post_tagged {A} (m : M A) (Q : outcome A -> list event -> Prop)
  (Q' : outcome (A * bool) -> list event -> Prop) :
  post m Q ->
  (forall a evs, Q (Ret a) evs -> Q' (Ret (a, false)) evs) ->
  (forall msg evs, Q (Panic msg) evs -> Q' (Panic msg) evs) ->
  (forall evs, Q OutOfFuel evs -> Q' OutOfFuel evs) ->
  post (r <- m ;; ret (r, false)) Q'.
Proof.
  intros Hm Hr Hp Ho. eapply post_bind; [exact Hm | | exact Hp | exact Ho].
  intros a e1 Ha. apply post_ret. rewrite app_nil_r. now apply Hr.
Qed.

Lemma strategy_full (w : World) enFlags cfg caPool :
  post (strategy w enFlags cfg caPool)
    (fun r evs =>
       Forall (postsTo w (Token enFlags)) evs
       /\ forall cfg' e c,
            r = Ret (cfg', e, c) ->
            keepsConfig cfg (Ret (cfg', e))
            /\ (cfg' <> cfg -> EnrollmentMethod (Token enFlags) = "ott")).
Proof.
  unfold strategy.
  destruct (String.eqb _ "ott") eqn:Hott.
  { apply String.eqb_eq in Hott.
    eapply post_tagged; [apply enrollOTT_full | | |]; cbn beta.
    - intros [cfg' e] evs [He Hk]. split; [exact He |].
      intros ? ? ? [= <- <- _]. split; [| now intros _].
      intros ? ? [= <- <-]. now apply Hk.
    - intros msg evs [He _]. split; [exact He | discriminate].
    - intros evs [He _]. split; [exact He | discriminate]. }
  destruct (String.eqb _ "ottca").
  { eapply post_tagged; [apply enrollCA_full | | |]; cbn beta.
    - intros [cfg' e] evs [He Hk]. split; [exact He |].
      intros ? ? ? [= <- <- _]. rewrite (Hk cfg' e eq_refl).
      split; [| intros Hn; now contradiction Hn].
      intros ? ? [= <- <-]. now repeat split.
    - intros msg evs [He _]. split; [exact He | discriminate].
    - intros evs [He _]. split; [exact He | discriminate]. }
  destruct (String.eqb _ "ca").
  { eapply post_tagged; [apply enrollCAAuto_full | | |]; cbn beta.
    - intros [cfg' e] evs [He Hk]. split; [exact He |].
      intros ? ? ? [= <- <- _]. rewrite (Hk cfg' e eq_refl).
      split; [| intros Hn; now contradiction Hn].
      intros ? ? [= <- <-]. now repeat split.
    - intros msg evs [He _]. split; [exact He | discriminate].
    - intros evs [He _]. split; [exact He | discriminate]. }
  apply post_ret. split; [constructor |].
  intros ? ? ? [= <- <- _]. split; [| intros Hn; now contradiction Hn].
  intros ? ? [= <- <-]. now repeat split.
Qed.

Lemma postsTo_enrollEvent (w : World) claims e :
  postsTo w claims e -> enrollEvent w claims e.
Proof. destruct e; cbn; tauto. Qed.

Lemma FetchCertificates_events (w : World) urlRoot rootCaPool :
  post (FetchCertificates w urlRoot rootCaPool)
    (fun _ evs =>
       Forall (fun e => exists u,
                 url_Parse w urlRoot = Ok u
                 /\ e = EvGet (Verify rootCaPool []) (wellKnown w u)) evs).
Proof.
  unfold FetchCertificates.
  destruct (url_Parse w urlRoot) as [u | err] eqn:Hu.
  2: apply post_panic; constructor.
  repeat post_step; (constructor; [| constructor]);
    exists u; split; reflexivity.
Qed.

(** One turn keeps to the events of a run, and to the endpoint and the key
    of the configuration, in the state it hands on and in what it returns. *)
Lemma loopBody_events (w : World) enFlags k st :
  held enFlags k (lsCfg st) ->
  post (loopBody w enFlags st)
    (fun r evs =>
       Forall (enrollEvent w (Token enFlags)) evs
       /\ (forall st', r = Ret (inl st') -> held enFlags k (lsCfg st'))
       /\ (forall c e, r = Ret (inr (c, e)) ->
             exists cfg, c = Some cfg /\ held enFlags k cfg)).
Proof.
  intros [Hapi Hkey]. unfold loopBody.
  eapply post_bind; [apply strategy_full | | |]; cbn beta.
  2: { intros msg e1 [He _]. split; [| split; discriminate].
       eapply Forall_impl; [apply postsTo_enrollEvent | exact He]. }
  2: { intros e1 [He _]. split; [| split; discriminate].
       eapply Forall_impl; [apply postsTo_enrollEvent | exact He]. }
  intros [[cfg enrollErr] complete] e1 [He Hk].
  destruct (Hk _ _ _ eq_refl) as [Hkeep _].
  destruct (Hkeep _ _ eq_refl) as (Hz & Hkk & _ & _).
  assert (Hheld : held enFlags k cfg) by (split; congruence).
  assert (He' : Forall (enrollEvent w (Token enFlags)) e1)
    by (eapply Forall_impl; [apply postsTo_enrollEvent | exact He]).
  destruct enrollErr as [e |].
  2: { apply post_ret. rewrite app_nil_r. split; [exact He' |].
       split; [now intros ? [= <-] | discriminate]. }
  assert (Hret : post (ret (inr (Some cfg, Some e)) : M (LoopState + returned))
            (fun r e2 =>
               Forall (enrollEvent w (Token enFlags)) (e1 ++ e2)
               /\ (forall st', r = Ret (inl st') -> held enFlags k (lsCfg st'))
               /\ (forall c e0, r = Ret (inr (c, e0)) ->
                     exists cfg0, c = Some cfg0 /\ held enFlags k cfg0))).
  { apply post_ret. rewrite app_nil_r. split; [exact He' |].
    split; [discriminate |]. intros ? ? [= <- _]. now exists cfg. }
  destruct e as [op u inner | | | |]; try exact Hret.
  destruct inner; try exact Hret.
  destruct (shouldFetchCerts st); try exact Hret.
  unfold AddCertPtr.
  destruct (SignatureCert (Token enFlags)) as [sc |] eqn:Hsig.
  2: { apply post_bind_panic. rewrite app_nil_r.
       split; [exact He' | split; discriminate]. }
  apply post_bind_ret.
  eapply post_bind; [apply FetchCertificates_events | | |]; cbn beta.
  - intros certs e2 He2.
    destruct (addCerts _ _ certs) as [allowed' pool'].
    apply post_ret. rewrite app_nil_r. split.
    + apply Forall_app. split; [exact He' |].
      eapply Forall_impl; [| exact He2].
      intros ev (u0 & Hu0 & ->). cbn. exists sc, u0.
      rewrite Hz, Hapi in Hu0. now repeat split.
    + split; [now intros ? [= <-] | discriminate].
  - intros msg e2 He2. split; [| split; discriminate].
    apply Forall_app. split; [exact He' |].
    eapply Forall_impl; [| exact He2].
    intros ev (u0 & Hu0 & ->). cbn. exists sc, u0.
    rewrite Hz, Hapi in Hu0. now repeat split.
  - intros e2 He2. split; [| split; discriminate].
    apply Forall_app. split; [exact He' |].
    eapply Forall_impl; [| exact He2].
    intros ev (u0 & Hu0 & ->). cbn. exists sc, u0.
    rewrite Hz, Hapi in Hu0. now repeat split.
Qed.

Lemma enrollLoop_events (w : World) enFlags k fuel :
  forall st,
    held enFlags k (lsCfg st) ->
    post (enrollLoop w fuel enFlags st)
      (fun r evs =>
         Forall (enrollEvent w (Token enFlags)) evs
         /\ (forall st', r = Ret (inl st') -> held enFlags k (lsCfg st'))
         /\ (forall c e, r = Ret (inr (c, e)) ->
               exists cfg, c = Some cfg /\ held enFlags k cfg)).
Proof.
  induction fuel as [| fuel IH]; intros st Hheld; cbn [enrollLoop];
    destruct (enrollmentComplete st).
  - apply post_ret. split; [constructor |].
    split; [now intros ? [= <-] | discriminate].
  - intro h. cbn. split; [constructor | split; discriminate].
  - apply post_ret. split; [constructor |].
    split; [now intros ? [= <-] | discriminate].
  - eapply post_bind; [apply (loopBody_events w enFlags k st Hheld) | | |];
      cbn beta.
    + intros [st' | [c e]] e1 (He1 & Hst & Hout).
      * eapply post_conseq; [apply IH, Hst; reflexivity |].
        intros r e2 (He2 & Hst2 & Hout2).
        split; [now apply Forall_app | now split].
      * apply post_ret. rewrite app_nil_r. split; [exact He1 |].
        split; [discriminate |]. intros ? ? [= <- <-].
        now apply (Hout c e).
    + intros msg e1 (He1 & _). split; [exact He1 | split; discriminate].
    + intros e1 (He1 & _). split; [exact He1 | split; discriminate].
Qed.

Lemma prepareKey_full (w : World) claims enFlags cfg :
  post (prepareKey w enFlags cfg)
    (fun r evs =>
       Forall (enrollEvent w claims) evs
       /\ (forall cfg', r = Ret (inl cfg') -> ZtAPI cfg' = ZtAPI cfg)
       /\ (forall c e, r = Ret (inr (c, e)) -> c = None /\ e <> None)).
Proof.
  unfold prepareKey, generateKey, MarshalECPrivateKey.
  repeat post_step;
    (split; [events_leaf | split; try discriminate]).
  all: try (intros ? [= <-]; reflexivity).
  all: try (intros ? ? [= <- <-]; split; [reflexivity | discriminate]).
Qed.

(** The key reference key preparation leaves in the configuration. *)
Lemma prepareKey_key (w : World) enFlags cfg h cfg' evs :
  prepareKey w enFlags cfg h = (Ret (inl cfg'), evs) ->
  keyForm w enFlags h (Key (ID cfg')).
Proof.
  unfold prepareKey, generateKey, MarshalECPrivateKey, keyForm, bind, perform,
    ret.
  destruct (isEmpty (TrimSpace (KeyFile enFlags))); cbn [negb].
  - destruct (ecdsa_GenerateKey w h) as [[key |] [err |]];
      try discriminate.
    + destruct (x509_MarshalECPrivateKey w key). intros [=].
    + destruct (x509_MarshalECPrivateKey w key) as [asnBytes merr] eqn:Hm.
      intros [= <- _]. exists key. rewrite Hm. now split.
  - destruct (os_Stat w h (KeyFile enFlags)) as [[info |] err];
      [| now intros [= <- _]].
    destruct (IsNotExist err); cbn [negb]; [now intros [= <- _] |].
    destruct (IsDir info); [intros [=] |].
    destruct (filepath_Abs w _ _) as [absPath [fileErr |]] eqn:Habs;
      [intros [=] |].
    intros [= <- _]. split; [reflexivity |]. now exists absPath.
Qed.

Lemma overrideCAs_events (w : World) claims enFlags :
  post (overrideCAs w enFlags)
    (fun _ evs => Forall (enrollEvent w claims) evs).
Proof. unfold overrideCAs. repeat post_step; events_leaf. Qed.

Lemma existingCert_full (w : World) claims enFlags cfg :
  post (existingCert w enFlags cfg)
    (fun r evs =>
       Forall (enrollEvent w claims) evs
       /\ forall enFlags' cfg',
            r = Ret (enFlags', cfg') ->
            Token enFlags' = Token enFlags
            /\ KeyFile enFlags' = KeyFile enFlags
            /\ ZtAPI cfg' = ZtAPI cfg
            /\ Key (ID cfg') = Key (ID cfg)).
Proof.
  unfold existingCert.
  repeat post_step; (split; [events_leaf |]);
    intros ? ? [= <- <-]; now repeat split.
Qed.

Lemma finish_full (w : World) claims cfg allowedCerts :
  post (finish w cfg allowedCerts)
    (fun r evs =>
       Forall (enrollEvent w claims) evs
       /\ forall c e,
            r = Ret (c, e) ->
            (c = None -> e <> None)
            /\ forall cfg', c = Some cfg' ->
                 ZtAPI cfg' = ZtAPI cfg /\ Key (ID cfg') = Key (ID cfg)).
Proof.
  unfold finish.
  repeat post_step; (split; [events_leaf |]);
    intros ? ? [= <- <-]; (split; [discriminate |]);
    try discriminate; now intros ? [= <-].
Qed.

(** The run once the key is prepared: its events, and what it returns. *)
Lemma enrollWithKey_full (w : World) fuel enFlags cfg :
  ZtAPI cfg = Issuer (Token enFlags) ->
  post (enrollWithKey w fuel enFlags cfg)
    (fun r evs =>
       Forall (enrollEvent w (Token enFlags)) evs
       /\ forall c e,
            r = Ret (c, e) ->
            (c = None -> e <> None)
            /\ forall cfg0, c = Some cfg0 ->
                 ZtAPI cfg0 = Issuer (Token enFlags)
                 /\ Key (ID cfg0) = Key (ID cfg)).
Proof.
  intros Hapi. unfold enrollWithKey.
  eapply post_bind;
    [apply (post_and _ _ (fun _ _ => True)
              (overrideCAs_events w (Token enFlags) enFlags));
     intro; exact I | | |]; cbn beta.
  2: intros msg e2 (He2 & _); split; [exact He2 | discriminate].
  2: intros e2 (He2 & _); split; [exact He2 | discriminate].
  intros [allowedCerts caPool] e2 (He2 & _).
  eapply post_bind;
    [apply (existingCert_full w (Token enFlags)) | | |]; cbn beta.
  2: intros msg e3 (He3 & _); split; [now apply Forall_app | discriminate].
  2: intros e3 (He3 & _); split; [now apply Forall_app | discriminate].
  intros [enFlags' cfg'] e3 (He3 & Hkeep).
  destruct (Hkeep _ _ eq_refl) as (Htok & Hkf & Hz & Hk).
  assert (Hheld : held enFlags' (Key (ID cfg)) cfg').
  { split; [rewrite Htok; congruence | exact Hk]. }
  eapply post_bind;
    [apply (enrollLoop_events w enFlags' (Key (ID cfg)) fuel
              (mkLoop cfg' caPool allowedCerts false true) Hheld) | | |];
    cbn beta; rewrite Htok.
  - intros [st | [c e]] e4 (He4 & Hst & Hret).
    + destruct (Hst st eq_refl) as [Hzs Hks]. rewrite Htok in Hzs.
      eapply post_conseq; [apply (finish_full w (Token enFlags)) |].
      intros r e5 (He5 & Hfin). split.
      * repeat (apply Forall_app; split); assumption.
      * intros c e Hr. destruct (Hfin c e Hr) as [Hnone Hsome].
        split; [exact Hnone |]. intros cfg0 Hc.
        destruct (Hsome cfg0 Hc) as [Hz0 Hk0].
        split; congruence.
    + apply post_ret. rewrite app_nil_r. split.
      * repeat (apply Forall_app; split); assumption.
      * intros ? ? [= <- <-].
        destruct (Hret c e eq_refl) as (cfg0 & -> & Hz0 & Hk0).
        split; [discriminate |]. intros ? [= <-].
        rewrite Htok in Hz0. now split.
  - intros msg e4 (He4 & _). split; [| discriminate].
    repeat (apply Forall_app; split); assumption.
  - intros e4 (He4 & _). split; [| discriminate].
    repeat (apply Forall_app; split); assumption.
Qed.

(** The whole run: its events, and what it returns. *)
Lemma Enroll_full (w : World) fuel enFlags :
  post (Enroll w fuel enFlags)
    (fun r evs =>
       Forall (enrollEvent w (Token enFlags)) evs
       /\ forall c e,
            r = Ret (c, e) ->
            (c = None -> e <> None)
            /\ forall cfg, c = Some cfg -> ZtAPI cfg = Issuer (Token enFlags)).
Proof.
  unfold Enroll.
  eapply post_bind;
    [apply (prepareKey_full w (Token enFlags)) | | |]; cbn beta.
  2: intros msg e1 (He1 & _); split; [exact He1 | discriminate].
  2: intros e1 (He1 & _); split; [exact He1 | discriminate].
  intros [cfg | [c e]] e1 (He1 & Hin & Hout).
  2: { apply post_ret. rewrite app_nil_r. split; [exact He1 |].
       intros ? ? [= <- <-]. destruct (Hout c e eq_refl) as [-> Hne].
       split; [now intros _ | discriminate]. }
  pose proof (Hin cfg eq_refl) as Hapi. cbn in Hapi.
  eapply post_conseq; [apply (enrollWithKey_full w fuel enFlags cfg Hapi) |].
  intros r e2 (He2 & Hret). split; [now apply Forall_app |].
  intros c e Hr. destruct (Hret c e Hr) as [Hnone Hsome].
  split; [exact Hnone |]. intros cfg0 Hc. now apply (Hsome cfg0 Hc).
Qed.

(** ** Turns of the loop *)

Lemma enrollLoop_done (w : World) enFlags fuel st h :
  enrollmentComplete st = true ->
  enrollLoop w fuel enFlags st h = (Ret (inl st), []).
Proof. intros Hc. destruct fuel; cbn [enrollLoop]; now rewrite Hc. Qed.

Lemma strategy_unsupported (w : World) enFlags cfg caPool h :
  EnrollmentMethod (Token enFlags) <> "ott" ->
  EnrollmentMethod (Token enFlags) <> "ottca" ->
  EnrollmentMethod (Token enFlags) <> "ca" ->
  strategy w enFlags cfg caPool h
  = (Ret (cfg, Some (Fundamental ("enrollment method '"
             +++ EnrollmentMethod (Token enFlags) +++ "' is not supported")),
          true), []).
Proof.
  intros H1 H2 H3. unfold strategy.
  apply String.eqb_neq in H1, H2, H3. now rewrite H1, H2, H3.
Qed.

(** Whatever fuel covers the turns left gives the same run. *)
Lemma enrollLoop_fuel (w : World) enFlags :
  forall fuel1 fuel2 st h,
    turns st <= fuel1 -> turns st <= fuel2 ->
    enrollLoop w fuel1 enFlags st h = enrollLoop w fuel2 enFlags st h.
Proof.
  induction fuel1 as [| fuel1 IH]; intros fuel2 st h H1 H2.
  - unfold turns in *. destruct (enrollmentComplete st) eqn:Hc.
    + now rewrite !enrollLoop_done.
    + destruct (shouldFetchCerts st); lia.
  - destruct (enrollmentComplete st) eqn:Hc.
    { now rewrite !enrollLoop_done. }
    destruct fuel2 as [| fuel2].
    { unfold turns in H2. rewrite Hc in H2.
      destruct (shouldFetchCerts st); lia. }
    cbn [enrollLoop]. rewrite Hc. unfold bind.
    pose proof (loopBody_post w enFlags st h) as (_ & _ & _ & Hst).
    destruct (loopBody w enFlags st h) as [[[st' | out] | msg |] e1];
      try reflexivity.
    cbn [fst snd] in Hst.
    assert (Hturns : turns st' <= fuel1 /\ turns st' <= fuel2).
    { unfold turns in *. rewrite Hc in *.
      destruct (Hst st' eq_refl) as [[Hc' _] | [Hs Hs']].
      - rewrite Hc'. lia.
      - rewrite Hs in *. rewrite Hs'.
        destruct (enrollmentComplete st'); lia. }
    now rewrite (IH fuel2 st' (h ++ e1)).
Qed.

(** One attempt that does not call for the bootstrap ends the loop. *)
Lemma enrollLoop_single_attempt (w : World) enFlags fuel st h cfg1 e c evs1 :
  1 <= fuel ->
  enrollmentComplete st = false ->
  strategy w enFlags (lsCfg st) (lsCaPool st) h = (Ret (cfg1, e, c), evs1) ->
  shouldFetchCerts st = false
  \/ (forall op u, e <> Some (UrlError op u UnknownAuthorityError)) ->
  enrollLoop w fuel enFlags st h
  = (match e with
     | None => Ret (inl (mkLoop cfg1 (lsCaPool st) (lsAllowedCerts st) true
                           (shouldFetchCerts st)))
     | Some err => Ret (inr (Some cfg1, Some err))
     end, evs1).
Proof.
  intros Hfuel Hc Hstrat Hcase.
  destruct fuel as [| fuel]; [lia |].
  cbn [enrollLoop]. rewrite Hc. unfold bind at 1, loopBody, bind at 1.
  rewrite Hstrat.
  destruct e as [err |].
  2: { cbn. rewrite enrollLoop_done by reflexivity.
       now rewrite !app_nil_r. }
  destruct err as [op u inner | | | |]; cbn; try now rewrite !app_nil_r.
  destruct inner; cbn; try now rewrite !app_nil_r.
  destruct Hcase as [Hs | Hne].
  - rewrite Hs. cbn. now rewrite !app_nil_r.
  - now contradiction (Hne op u).
Qed.

(** X1. A run of [Enroll] never turns verification off.  Every POST of a
    run goes to the enrollment URL of the token under a verifying TLS
    configuration, and every GET is the fetch of the CA bundle under the
    issuer's well-known path, verified against a pool that holds the
    token's signature certificate and nothing else. *)
Theorem Enroll_network_discipline (w : World) fuel enFlags h :
  Forall (enrollEvent w (Token enFlags)) (snd (Enroll w fuel enFlags h)).
Proof. apply (Enroll_full w fuel enFlags h). Qed.

(** X2. What [Enroll] returns is never empty-handed: without a
    configuration there is an error.  And a configuration it returns, with
    or without an error, has the issuer of the token as its endpoint and the
    key reference key preparation made: with no key file given, [pem:]
    followed by the PEM block, of type EC PRIVATE KEY, of the marshalled key
    that [ecdsa.GenerateKey] generated; with a key file that stat finds,
    [file://] followed by the absolute path [filepath.Abs] answers for it,
    the file being no directory; with a key file stat does not find, the
    key file as it was given. *)
Theorem Enroll_returned_configuration (w : World) fuel enFlags h c e evs :
  Enroll w fuel enFlags h = (Ret (c, e), evs) ->
  (c = None -> e <> None)
  /\ forall cfg, c = Some cfg ->
       ZtAPI cfg = Issuer (Token enFlags)
       /\ keyForm w enFlags h (Key (ID cfg)).
Proof.
  intros Hrun. destruct (Enroll_full w fuel enFlags h) as [_ Hret].
  rewrite Hrun in Hret. destruct (Hret c e eq_refl) as [Hnone Hapi].
  split; [exact Hnone |]. intros cfg ->. split; [now apply Hapi |].
  revert Hrun. unfold Enroll, bind.
  pose proof (prepareKey_full w (Token enFlags) enFlags (newConfig enFlags) h)
    as (_ & Hin & Hout).
  destruct (prepareKey w enFlags (newConfig enFlags) h)
    as [[[cfg0 | [c0 e0]] | msg |] e1] eqn:Hprep; try discriminate.
  - pose proof (enrollWithKey_full w fuel enFlags cfg0 (Hin cfg0 eq_refl)
                  (h ++ e1)) as (_ & Hkeep).
    destruct (enrollWithKey w fuel enFlags cfg0 (h ++ e1)) as [r e2].
    intros [= -> _]. cbn [fst] in Hkeep.
    destruct (Hkeep _ _ eq_refl) as [_ Hsome].
    destruct (Hsome cfg eq_refl) as [_ Hkey]. rewrite Hkey.
    exact (prepareKey_key _ _ _ _ _ _ Hprep).
  - destruct (Hout c0 e0 eq_refl) as [-> _]. cbn. intros [=].
Qed.

Lemma Enroll_returned_configuration_witness :
  (ZtAPI (setCA (setCert keyedConfig "pem:CERT-PEM") "pem:CA-DER")
   = "https://ctrl.example"
   /\ keyForm tofuWorld (flagsFor "ott" "") []
        (Key (ID (setCA (setCert keyedConfig "pem:CERT-PEM") "pem:CA-DER"))))
  /\ Key (ID (setCA (setCert keyedConfig "pem:CERT-PEM") "pem:CA-DER"))
     = "pem:PEM[EC PRIVATE KEY]ASN1:P384".
Proof.
  split; [| reflexivity].
  exact (proj2 (Enroll_returned_configuration tofuWorld 2 (flagsFor "ott" "")
                  [] _ _ _ Enroll_tofu) _ eq_refl).
Defined.

(** X3. A strategy hands back the configuration it was given, except for
    the certificate: endpoint, key and CA bundle are untouched.  When it
    returns an error the configuration is untouched altogether, and only the
    token method ever changes it. *)
Theorem strategy_keeps_configuration (w : World) enFlags cfg caPool h cfg' e c
  evs :
  strategy w enFlags cfg caPool h = (Ret (cfg', e, c), evs) ->
  ZtAPI cfg' = ZtAPI cfg
  /\ Key (ID cfg') = Key (ID cfg)
  /\ CA (ID cfg') = CA (ID cfg)
  /\ (e <> None -> cfg' = cfg)
  /\ (cfg' <> cfg -> EnrollmentMethod (Token enFlags) = "ott").
Proof.
  intros Hrun. destruct (strategy_full w enFlags cfg caPool h) as [_ Hret].
  rewrite Hrun in Hret. destruct (Hret _ _ _ eq_refl) as [Hkeep Hott].
  destruct (Hkeep _ _ eq_refl) as (Hz & Hk & Hca & Herr). now repeat split.
Qed.

Lemma strategy_keeps_configuration_witness :
  Key (ID (setCert keyedConfig "pem:CERT-PEM")) = Key (ID keyedConfig)
  /\ (setCert keyedConfig "pem:CERT-PEM" <> keyedConfig ->
      EnrollmentMethod (Token (flagsFor "ott" "")) = "ott").
Proof.
  destruct (strategy_keeps_configuration
              (serverWorld 200 "200 OK" "CERT-PEM") (flagsFor "ott" "")
              keyedConfig [] [EvGenerateKey]
              (setCert keyedConfig "pem:CERT-PEM") None false (ottAttempt None)
              eq_refl) as (_ & Hk & _ & _ & Hott).
  split; assumption.
Defined.

(** X4. An attempt that does not call for the bootstrap is the only one.
    When the flag is already cleared, or the strategy succeeds or fails
    with anything but a [url.Error] over [x509.UnknownAuthorityError], the
    loop ends with that attempt: success completes it with the pool as it
    was, an error is returned with the configuration; no CA bundle is
    fetched and at most one POST was made. *)
Theorem one_attempt_without_trust_failure (w : World) enFlags fuel st h cfg1 e
  c evs1 :
  1 <= fuel ->
  enrollmentComplete st = false ->
  strategy w enFlags (lsCfg st) (lsCaPool st) h = (Ret (cfg1, e, c), evs1) ->
  shouldFetchCerts st = false
  \/ (forall op u, e <> Some (UrlError op u UnknownAuthorityError)) ->
  enrollLoop w fuel enFlags st h
  = (match e with
     | None => Ret (inl (mkLoop cfg1 (lsCaPool st) (lsAllowedCerts st) true
                           (shouldFetchCerts st)))
     | Some err => Ret (inr (Some cfg1, Some err))
     end, evs1)
  /\ gets evs1 = 0 /\ posts evs1 <= 1.
Proof.
  intros Hfuel Hc Hstrat Hcase.
  split; [now apply (enrollLoop_single_attempt w enFlags fuel st h cfg1 e c) |].
  pose proof (strategy_post w enFlags (lsCfg st) (lsCaPool st) h)
    as (_ & Hg & Hp & _).
  rewrite Hstrat in Hg, Hp. now split.
Qed.

Lemma one_attempt_without_trust_failure_witness :
  enrollLoop (serverWorld 503 "503 Service Unavailable" "busy") 2
    (flagsFor "ott" "") (firstTurn [] []) [EvGenerateKey]
  = (Ret (inr (Some keyedConfig,
               Some (Fundamental
                 "enroll error: 503 Service Unavailable: could not parse body: busy"))),
     ottAttempt None).
Proof.
  refine (proj1 (one_attempt_without_trust_failure
                   (serverWorld 503 "503 Service Unavailable" "busy")
                   (flagsFor "ott" "") 2 (firstTurn [] []) [EvGenerateKey]
                   keyedConfig
                   (Some (Fundamental
                      "enroll error: 503 Service Unavailable: could not parse body: busy"))
                   false (ottAttempt None) _ eq_refl eq_refl _)).
  - lia.
  - right. intros op u. discriminate.
Defined.

(** X5. Two turns of fuel are all a run ever uses: with any more, [Enroll]
    gives the same outcome and the same events. *)
Theorem Enroll_fuel_irrelevant (w : World) fuel enFlags h :
  2 <= fuel -> Enroll w fuel enFlags h = Enroll w 2 enFlags h.
Proof.
  intros Hfuel. unfold Enroll, bind.
  destruct (prepareKey w enFlags (newConfig enFlags) h)
    as [[[cfg | out] | msg |] e1]; try reflexivity.
  unfold enrollWithKey, bind.
  destruct (overrideCAs w enFlags (h ++ e1))
    as [[[allowedCerts caPool] | msg |] e2]; try reflexivity.
  destruct (existingCert w enFlags cfg ((h ++ e1) ++ e2))
    as [[[enFlags' cfg'] | msg |] e3]; try reflexivity.
  now rewrite (enrollLoop_fuel w enFlags' fuel 2
                 (mkLoop cfg' caPool allowedCerts false true)).
Qed.

Lemma Enroll_fuel_irrelevant_witness :
  Enroll tofuWorld 7 (flagsFor "ott" "") []
  = Enroll tofuWorld 2 (flagsFor "ott" "") [].
Proof.
  apply (Enroll_fuel_irrelevant tofuWorld 7 (flagsFor "ott" "") []). lia.
Defined.

(** X6. A method other than [ott], [ottca] and [ca] is refused without a
    word to the network: the run makes no GET and no POST, it ends, it never
    succeeds, and when it returns a configuration the error beside it is the
    unsupported-method error naming the method. *)
Theorem unsupported_method_is_terminal (w : World) fuel enFlags h :
  EnrollmentMethod (Token enFlags) <> "ott" ->
  EnrollmentMethod (Token enFlags) <> "ottca" ->
  EnrollmentMethod (Token enFlags) <> "ca" ->
  1 <= fuel ->
  gets (snd (Enroll w fuel enFlags h)) = 0
  /\ posts (snd (Enroll w fuel enFlags h)) = 0
  /\ fst (Enroll w fuel enFlags h) <> OutOfFuel
  /\ (forall c, fst (Enroll w fuel enFlags h) <> Ret (c, None))
  /\ (forall cfg e,
        fst (Enroll w fuel enFlags h) = Ret (Some cfg, e) ->
        e = Some (Fundamental ("enrollment method '"
              +++ EnrollmentMethod (Token enFlags) +++ "' is not supported"))).
Proof.
  intros H1 H2 H3 Hfuel. unfold Enroll, bind.
  pose proof (prepareKey_post w enFlags (newConfig enFlags) h)
    as (Hne1 & Hg1 & Hp1).
  pose proof (prepareKey_full w (Token enFlags) enFlags (newConfig enFlags) h)
    as (_ & _ & Hout).
  destruct (prepareKey w enFlags (newConfig enFlags) h)
    as [[[cfg | [c e]] | msg |] e1]; cbn [fst snd] in *.
  2: { destruct (Hout c e eq_refl) as [-> Hne].
       cbn [ret fst snd]. rewrite ?app_nil_r.
       repeat split; try assumption; try discriminate.
       intros c [= <-]. now contradiction Hne. }
  2: { repeat split; try assumption; discriminate. }
  2: { now contradiction Hne1. }
  unfold enrollWithKey, bind.
  pose proof (overrideCAs_post w enFlags (h ++ e1)) as (Hne2 & Hg2 & Hp2).
  destruct (overrideCAs w enFlags (h ++ e1))
    as [[[allowedCerts caPool] | msg |] e2]; cbn [fst snd] in *.
  2: { rewrite gets_app, posts_app.
       repeat split; try lia; discriminate. }
  2: { now contradiction Hne2. }
  pose proof (existingCert_post w enFlags cfg ((h ++ e1) ++ e2))
    as (Hne3 & Hg3 & Hp3).
  pose proof (existingCert_full w (Token enFlags) enFlags cfg
                ((h ++ e1) ++ e2)) as (_ & Hkeep).
  destruct (existingCert w enFlags cfg ((h ++ e1) ++ e2))
    as [[[enFlags' cfg'] | msg |] e3]; cbn [fst snd] in *.
  2: { rewrite !gets_app, !posts_app.
       repeat split; try lia; discriminate. }
  2: { now contradiction Hne3. }
  destruct (Hkeep _ _ eq_refl) as (Htok & _).
  rewrite <- Htok in H1, H2, H3.
  rewrite (enrollLoop_single_attempt w enFlags' fuel
             (mkLoop cfg' caPool allowedCerts false true) _ _ _ _ _
             Hfuel eq_refl (strategy_unsupported w enFlags' _ _ _ H1 H2 H3))
    by (right; intros; discriminate).
  cbn [ret fst snd]. rewrite !app_nil_r, !gets_app, !posts_app, Htok.
  repeat split; try lia; try discriminate.
  now intros ? ? [= _ <-].
Qed.

Lemma unsupported_method_is_terminal_witness :
  gets (snd (Enroll tofuWorld 2 (flagsFor "updb" "") [])) = 0
  /\ posts (snd (Enroll tofuWorld 2 (flagsFor "updb" "") [])) = 0.
Proof.
  refine ((fun H => conj (proj1 H) (proj1 (proj2 H)))
            (unsupported_method_is_terminal tofuWorld 2 (flagsFor "updb" "")
               [] _ _ _ _)); try discriminate. lia.
Defined.

(** ** Key files *)

(** X7. A key file that is there is checked before anything else happens.
    A directory is refused: [Enroll] returns the directory error and no
    configuration, having done nothing but the stat.  A file is resolved to
    an absolute path: if that fails, the error of [filepath.Abs] is returned
    with no configuration; if not, the key reference is [file://] followed
    by the absolute path.  No key is generated in any of these cases. *)
Theorem key_file_is_checked (w : World) fuel enFlags h info err :
  isEmpty (TrimSpace (KeyFile enFlags)) = false ->
  os_Stat w h (KeyFile enFlags) = (Some info, err) ->
  IsNotExist err = false ->
  (IsDir info = true ->
   Enroll w fuel enFlags h
   = (Ret (None, Some (Fundamental ("specified key is a directory ("
                         +++ KeyFile enFlags +++ ")"))),
      [EvStat (KeyFile enFlags)]))
  /\ (IsDir info = false ->
      forall absPath fileErr,
        filepath_Abs w (h ++ [EvStat (KeyFile enFlags)]) (KeyFile enFlags)
        = (absPath, fileErr) ->
        match fileErr with
        | Some e =>
            Enroll w fuel enFlags h
            = (Ret (None, Some e),
               [EvStat (KeyFile enFlags); EvAbs (KeyFile enFlags)])
        | None =>
            prepareKey w enFlags (newConfig enFlags) h
            = (Ret (inl (setKey (newConfig enFlags) ("file://" +++ absPath))),
               [EvStat (KeyFile enFlags); EvAbs (KeyFile enFlags)])
        end).
Proof.
  intros Hgiven Hstat Hexists. split.
  - intros Hdir. unfold Enroll, prepareKey, bind, perform.
    rewrite Hgiven. cbn [negb]. cbv beta. rewrite Hstat, Hexists, Hdir.
    reflexivity.
  - intros Hfile absPath fileErr Habs.
    destruct fileErr as [e |].
    + unfold Enroll, prepareKey, bind, perform.
      rewrite Hgiven. cbn [negb]. cbv beta.
      rewrite Hstat, Hexists, Hfile. cbn [negb]. cbv beta.
      rewrite Habs. reflexivity.
    + unfold prepareKey, bind, perform.
      rewrite Hgiven. cbn [negb]. cbv beta.
      rewrite Hstat, Hexists, Hfile. cbn [negb]. cbv beta.
      rewrite Habs. reflexivity.
Qed.

Lemma key_file_is_checked_witness :
  Enroll diskWorld 2 (flagsFor "ott" "keys") []
  = (Ret (None, Some (Fundamental "specified key is a directory (keys)")),
     [EvStat "keys"])
  /\ prepareKey diskWorld (flagsFor "ott" "id.key")
       (newConfig (flagsFor "ott" "id.key")) []
     = (Ret (inl (setKey (newConfig (flagsFor "ott" "id.key"))
                    "file:///work/id.key")),
        [EvStat "id.key"; EvAbs "id.key"]).
Proof.
  split.
  - exact (proj1 (key_file_is_checked diskWorld 2 (flagsFor "ott" "keys") []
                    (mkFileInfo true) None eq_refl eq_refl eq_refl) eq_refl).
  - exact (proj2 (key_file_is_checked diskWorld 2 (flagsFor "ott" "id.key") []
                    (mkFileInfo false) None eq_refl eq_refl eq_refl)
             eq_refl "/work/id.key" None eq_refl).
Defined.

(** ** The pool and the list beside it *)

Lemma certEqual_refl (c : Certificate) : certEqual c c = true.
Proof. apply String.eqb_refl. Qed.

Lemma contains_In (s : CertPool) (c : Certificate) :
  contains s c = true <-> In (Raw c) (map Raw s).
Proof.
  unfold contains. rewrite existsb_exists, in_map_iff. split.
  - intros (x & Hin & Heq). apply String.eqb_eq in Heq. now exists x.
  - intros (x & Heq & Hin). exists x. split; [exact Hin |].
    now apply String.eqb_eq.
Qed.

Lemma contains_snoc (s : CertPool) (x c : Certificate) :
  contains (s ++ [x]) c = (contains s c || certEqual c x)%bool.
Proof. unfold contains. rewrite existsb_app. cbn. now rewrite orb_false_r. Qed.

Lemma contains_AddCert (s : CertPool) (x c : Certificate) :
  contains (AddCert s x) c = (contains s c || certEqual c x)%bool.
Proof.
  unfold AddCert. destruct (contains s x) eqn:Hx; [| apply contains_snoc].
  destruct (certEqual c x) eqn:Hcx; [| now rewrite orb_false_r].
  rewrite orb_true_r. apply String.eqb_eq in Hcx.
  apply contains_In. rewrite Hcx. now apply contains_In.
Qed.

Lemma AddCert_distinct (s : CertPool) (x : Certificate) :
  distinct s -> distinct (AddCert s x).
Proof.
  unfold distinct, AddCert. intros Hs.
  destruct (contains s x) eqn:Hx; [exact Hs |].
  rewrite map_app. apply NoDup_app; [exact Hs | |].
  - cbn. constructor; [intros [] | constructor].
  - intros a Ha [<- | []]. apply contains_In in Ha. congruence.
Qed.

Lemma addCerts_pair (xs : list Certificate) :
  forall allowedCerts caPool,
    fst (addCerts allowedCerts caPool xs) = allowedCerts ++ xs
    /\ (inStep allowedCerts caPool ->
        inStep (fst (addCerts allowedCerts caPool xs))
          (snd (addCerts allowedCerts caPool xs)))
    /\ (distinct caPool -> distinct (snd (addCerts allowedCerts caPool xs))).
Proof.
  induction xs as [| x xs IH]; intros allowedCerts caPool; cbn [addCerts].
  - cbn. rewrite app_nil_r. now repeat split.
  - destruct (IH (allowedCerts ++ [x]) (AddCert caPool x)) as (Hl & Hs & Hd).
    split; [now rewrite Hl, <- app_assoc |]. split.
    + intros Hstep. apply Hs. intros c.
      now rewrite contains_snoc, contains_AddCert, Hstep.
    + intros Hdist. now apply Hd, AddCert_distinct.
Qed.

Lemma inStep_empty (allowedCerts : list Certificate) (caPool : CertPool) :
  inStep allowedCerts caPool -> (allowedCerts = [] <-> caPool = []).
Proof.
  intros Hstep. split; intros ->.
  - destruct caPool as [| c p]; [reflexivity |].
    specialize (Hstep c). cbn in Hstep.
    now rewrite certEqual_refl in Hstep.
  - destruct allowedCerts as [| c a]; [reflexivity |].
    specialize (Hstep c). cbn in Hstep.
    now rewrite certEqual_refl in Hstep.
Qed.

(** What a turn hands on holds the certificates it was given and those of
    at most one fetch, added by the [range] loop. *)
Lemma loopBody_pool (w : World) enFlags st h st' evs :
  loopBody w enFlags st h = (Ret (inl st'), evs) ->
  exists certs,
    (lsAllowedCerts st', lsCaPool st')
    = addCerts (lsAllowedCerts st) (lsCaPool st) certs.
Proof.
  unfold loopBody, bind at 1.
  destruct (strategy w enFlags (lsCfg st) (lsCaPool st) h)
    as [[[[cfg enrollErr] complete] | msg |] e1]; try discriminate.
  destruct enrollErr as [e |].
  2: { cbn. intros [= <- _]. now exists []. }
  destruct e as [op u inner | | | |]; try (cbn; discriminate).
  destruct inner; try (cbn; discriminate).
  destruct (shouldFetchCerts st); try (cbn; discriminate).
  unfold AddCertPtr. destruct (SignatureCert (Token enFlags));
    try (cbn; discriminate).
  unfold bind, ret.
  destruct (FetchCertificates _ _ _ _) as [[certs | msg |] e2];
    try discriminate.
  exists certs.
  destruct (addCerts (lsAllowedCerts st) (lsCaPool st) certs)
    as [allowed' pool'].
  now injection H as <- _.
Qed.

Lemma reaches_in_step (w : World) enFlags s s' :
  reaches w enFlags s s' ->
  inStep (lsAllowedCerts (fst s)) (lsCaPool (fst s)) ->
  distinct (lsCaPool (fst s)) ->
  inStep (lsAllowedCerts (fst s')) (lsCaPool (fst s'))
  /\ distinct (lsCaPool (fst s')).
Proof.
  induction 1 as [s | s1 s2 s3 Hstep _ IH]; intros Hin Hd.
  - now split.
  - apply IH; inversion Hstep as [st h st' evs _ Hbody]; subst; cbn in *;
      destruct (loopBody_pool _ _ _ _ _ _ Hbody) as [certs Hpair];
      destruct (addCerts_pair certs (lsAllowedCerts st) (lsCaPool st))
        as (_ & Hs & Hdd);
      rewrite <- Hpair in Hs, Hdd; cbn in Hs, Hdd; auto.
Qed.

(** X8. The pool and the list kept beside it move in step.  Each [range]
    loop appends the new certificates to [allowedCerts] in order, and keeps
    the pool free of repeats; and from any state of the loop where the two
    hold the same certificates and the pool has no repeats, every state
    reached holds them so again.  In particular the pool is empty, and the
    strategies fall back on the system roots, exactly when [allowedCerts] is
    empty and no CA bundle will be written. *)
Theorem pool_and_list_in_step (w : World) enFlags s s' :
  reaches w enFlags s s' ->
  inStep (lsAllowedCerts (fst s)) (lsCaPool (fst s)) ->
  distinct (lsCaPool (fst s)) ->
  inStep (lsAllowedCerts (fst s')) (lsCaPool (fst s'))
  /\ distinct (lsCaPool (fst s'))
  /\ (lsAllowedCerts (fst s') = [] <->
      useSystemCasIfEmpty (lsCaPool (fst s')) = None)
  /\ forall xs allowedCerts caPool,
       fst (addCerts allowedCerts caPool xs) = allowedCerts ++ xs.
Proof.
  intros Hreach Hin Hd.
  destruct (reaches_in_step w enFlags s s' Hreach Hin Hd) as [Hin' Hd'].
  split; [exact Hin' |]. split; [exact Hd' |]. split.
  - rewrite (inStep_empty _ _ Hin'). unfold useSystemCasIfEmpty, Subjects.
    destruct (lsCaPool (fst s')); cbn; split; congruence.
  - intros xs a p. apply (addCerts_pair xs a p).
Qed.

Lemma pool_and_list_in_step_witness :
  inStep [leafCert; caCert] [leafCert; caCert]
  /\ distinct [leafCert; caCert].
Proof.
  assert (Hrun :
    enrollLoop tofuWorld 2 (flagsFor "ott" "")
      (firstTurn [leafCert] [leafCert]) [EvGenerateKey]
    = (Ret (inl (mkLoop (setCert keyedConfig "pem:CERT-PEM")
                   [leafCert; caCert] [leafCert; caCert] true false)),
       ottAttempt (Some [leafCert]) ++ [bundleFetch]
       ++ ottAttempt (Some [leafCert; caCert]))) by reflexivity.
  assert (Hd : distinct [leafCert]).
  { repeat constructor. intros []. }
  destruct (pool_and_list_in_step tofuWorld (flagsFor "ott" "") _ _
              (enrollLoop_reaches _ _ _ _ _ _ _ Hrun)
              (fun c => eq_refl) Hd) as (Hin & Hdd & _).
  split; assumption.
Defined.

(** X9. The CA override file cannot make a run fail.  Reading it is the
    only thing done, and only when a name is given; the error of the read
    is dropped, and whatever certificates the PEM reader finds in the bytes
    become the list, in order, and the pool, without repeats.  With no name
    given both start empty. *)
Theorem override_file_never_fails (w : World) enFlags h :
  exists allowedCerts caPool evs,
    overrideCAs w enFlags h = (Ret (allowedCerts, caPool), evs)
    /\ inStep allowedCerts caPool
    /\ distinct caPool
    /\ (if isEmpty (TrimSpace (AdditionalCAs enFlags))
        then allowedCerts = [] /\ caPool = [] /\ evs = []
        else allowedCerts
             = nfpem_PemToX509 w
                 (fst (ioutil_ReadFile w h (AdditionalCAs enFlags)))
             /\ evs = [EvReadFile (AdditionalCAs enFlags)]).
Proof.
  unfold overrideCAs.
  destruct (isEmpty (TrimSpace (AdditionalCAs enFlags))); cbn [negb].
  - exists [], [], []. repeat split. constructor.
  - unfold bind, perform.
    destruct (ioutil_ReadFile w h (AdditionalCAs enFlags)) as [caPEMs e].
    cbn [fst ret].
    destruct (addCerts_pair (nfpem_PemToX509 w caPEMs) [] NewCertPool)
      as (Hl & Hs & Hd).
    destruct (addCerts [] NewCertPool (nfpem_PemToX509 w caPEMs))
      as [allowed pool] eqn:Hadd. cbn [fst snd] in *.
    exists allowed, pool, [EvReadFile (AdditionalCAs enFlags)].
    split; [reflexivity |].
    split; [apply Hs; now intros c |].
    split; [apply Hd; constructor |]. now split.
Qed.

(** The override file of [diskWorld] names the CA twice: the list keeps
    both, the pool one. *)
Example overrideCAs_disk :
  overrideCAs diskWorld (flagsWithCAs "ott" "" "cas.pem") []
  = (Ret ([caCert; leafCert; caCert], [caCert; leafCert]),
     [EvReadFile "cas.pem"]).
Proof. reflexivity. Qed.

(** ** The leaf certificate and the token *)

(** The two ways [FetchServerCert] ends. *)
Lemma FetchServerCert_cases (w : World) urlRoot h :
  exists r,
    FetchServerCert w urlRoot h = (Ret r, [EvGet InsecureSkipVerify urlRoot])
    /\ ((exists c resp rest,
           r = (Some c, None)
           /\ http_Get w h InsecureSkipVerify urlRoot = Ok resp
           /\ TLS resp = Some (c :: rest))
        \/ (exists e,
              r = (None, Some e)
              /\ forall resp,
                   http_Get w h InsecureSkipVerify urlRoot = Ok resp ->
                   TLS resp = None \/ TLS resp = Some [])).
Proof.
  unfold FetchServerCert, bind, perform.
  destruct (http_Get w h InsecureSkipVerify urlRoot) as [resp | err].
  - destruct (TLS resp) as [[| c rest] |] eqn:Htls.
    + eexists. split; [reflexivity |]. right. eexists.
      split; [reflexivity |]. intros ? [= <-]. now right.
    + eexists. split; [reflexivity |]. left. now exists c, resp, rest.
    + eexists. split; [reflexivity |]. right. eexists.
      split; [reflexivity |]. intros ? [= <-]. now left.
  - eexists. split; [reflexivity |]. right. eexists.
    split; [reflexivity | discriminate].
Qed.

(** X10. [FetchServerCert] makes one GET of the URL it is given, with
    verification off, and returns either a certificate or an error, never
    both and never neither: the certificate is the first one the peer
    presented; without a response, without TLS state or with an empty chain
    there is an error. *)
Theorem FetchServerCert_first_peer_certificate (w : World) urlRoot h :
  exists r,
    FetchServerCert w urlRoot h = (Ret r, [EvGet InsecureSkipVerify urlRoot])
    /\ ((exists c resp rest,
           r = (Some c, None)
           /\ http_Get w h InsecureSkipVerify urlRoot = Ok resp
           /\ TLS resp = Some (c :: rest))
        \/ (exists e,
              r = (None, Some e)
              /\ forall resp,
                   http_Get w h InsecureSkipVerify urlRoot = Ok resp ->
                   TLS resp = None \/ TLS resp = Some [])).
Proof. apply FetchServerCert_cases. Qed.

(** X11. When [ValidateToken] hands back a key there is no error beside
    it, and the key is the public key of the first certificate the issuer
    presented to the one unverified GET of the issuer URL; the claims of the
    token now carry that certificate as [SignatureCert]. *)
Theorem ValidateToken_key_is_leaf_key (w : World) token h key err token' evs :
  ValidateToken w token h = (Ret ((Some key, err), token'), evs) ->
  err = None
  /\ exists claims c resp rest,
       token = Some (mkToken (EnrollmentClaimsPtr (Some claims)))
       /\ http_Get w h InsecureSkipVerify (Issuer claims) = Ok resp
       /\ TLS resp = Some (c :: rest)
       /\ key = PublicKey c
       /\ token' = Some (mkToken (EnrollmentClaimsPtr
                                   (Some (setSignatureCert claims (Some c)))))
       /\ evs = [EvGet InsecureSkipVerify (Issuer claims)].
Proof.
  unfold ValidateToken.
  destruct token as [[[[claims |] |]] |]; cbn [Claims]; try discriminate.
  destruct (isEmpty (Issuer claims)); [intros [=] |].
  destruct (url_Parse w (Issuer claims)); [| intros [=]].
  unfold bind.
  destruct (FetchServerCert_cases w (Issuer claims) h)
    as (r & Hrun & Hr).
  rewrite Hrun.
  destruct Hr as [(c & resp & rest & -> & Hget & Htls) | (e & -> & _)].
  - cbn. intros [= <- <- <- <-]. split; [reflexivity |].
    now exists claims, c, resp, rest.
  - cbn. intros [=].
Qed.

Lemma ValidateToken_key_is_leaf_key_witness :
  ValidateToken
    (labWorld goodKey
       (fun _ => Ok {| StatusCode := 200; Status := "200 OK";
                       Body := ("", None); TLS := Some [leafCert; caCert] |})
       (fun _ => refused))
    (Some (mkToken (EnrollmentClaimsPtr (Some (claimsFor "ott"))))) []
  = (Ret ((Some "LEAF-KEY", None),
          Some (mkToken (EnrollmentClaimsPtr (Some (claimsFor "ott"))))),
     [EvGet InsecureSkipVerify "https://ctrl.example"])
  /\ (None : option error) = None.
Proof.
  assert (Hrun :
    ValidateToken
      (labWorld goodKey
         (fun _ => Ok {| StatusCode := 200; Status := "200 OK";
                         Body := ("", None); TLS := Some [leafCert; caCert] |})
         (fun _ => refused))
      (Some (mkToken (EnrollmentClaimsPtr (Some (claimsFor "ott"))))) []
    = (Ret ((Some "LEAF-KEY", None),
            Some (mkToken (EnrollmentClaimsPtr (Some (claimsFor "ott"))))),
       [EvGet InsecureSkipVerify "https://ctrl.example"])) by reflexivity.
  split; [exact Hrun |].
  exact (proj1 (ValidateToken_key_is_leaf_key _ _ _ _ _ _ _ Hrun)).
Defined.

(** X12. [ValidateToken] contacts nobody unless it has claims with an
    issuer that is not empty and parses as a URL; then it makes exactly the
    one unverified GET of the issuer.  It never hands back a key together
    with an error, it never panics, and when the fetch fails the
    [SignatureCert] of the claims is left nil, whatever it was before. *)
Theorem ValidateToken_contacts_issuer_only (w : World) token h :
  exists key err token',
    ValidateToken w token h
    = (Ret ((key, err), token'), snd (ValidateToken w token h))
    /\ (key <> None -> err = None)
    /\ (key = None -> err <> None)
    /\ (snd (ValidateToken w token h) = [] /\ token' = token
        \/ exists claims u,
             token = Some (mkToken (EnrollmentClaimsPtr (Some claims)))
             /\ Issuer claims <> ""
             /\ url_Parse w (Issuer claims) = Ok u
             /\ snd (ValidateToken w token h)
                = [EvGet InsecureSkipVerify (Issuer claims)]
             /\ (key = None ->
                 token' = Some (mkToken (EnrollmentClaimsPtr
                                  (Some (setSignatureCert claims None)))))).
Proof.
  unfold ValidateToken.
  destruct token as [[[[claims |] |]] |]; cbn [Claims].
  2-4: do 3 eexists; split; [reflexivity |]; cbn;
       (split; [intros Hn; now contradiction Hn |]);
       (split; [discriminate | now left]).
  destruct (isEmpty (Issuer claims)) eqn:Hempty.
  { do 3 eexists. split; [reflexivity |]. cbn.
    split; [intros Hn; now contradiction Hn |].
    split; [discriminate | now left]. }
  destruct (url_Parse w (Issuer claims)) as [u | e] eqn:Hu.
  2: { do 3 eexists. split; [reflexivity |]. cbn.
       split; [intros Hn; now contradiction Hn |].
       split; [discriminate | now left]. }
  assert (Hissuer : Issuer claims <> "").
  { intros Heq. rewrite Heq in Hempty. discriminate. }
  unfold bind.
  destruct (FetchServerCert_cases w (Issuer claims) h)
    as (r & Hrun & Hr).
  rewrite Hrun.
  destruct Hr as [(c & resp & rest & -> & _) | (e & -> & _)]; cbn.
  - do 3 eexists. split; [reflexivity |].
    split; [reflexivity |]. split; [discriminate |]. right.
    exists claims, u. repeat split; try assumption. discriminate.
  - do 3 eexists. split; [reflexivity |].
    split; [intros Hn; now contradiction Hn |]. split; [discriminate |].
    right. exists claims, u. now repeat split.
Qed.

(** ** The CA bundle, when it arrives *)

(** X13. [FetchCertificates] returns certificates exactly when all went
    well.  A sequence that is not empty means that the GET was answered
    with a status in 200..299, that the body was read, that the decoder
    yielded bytes and that the PKCS7 parser read the returned certificates
    out of them.  And whenever these hold the parsed certificates are
    returned -- whether or not the decoder also reported an error, which is
    dropped. *)
Theorem FetchCertificates_certificates_iff (w : World) urlRoot rootCaPool h u
  certs :
  url_Parse w urlRoot = Ok u ->
  certs <> [] ->
  FetchCertificates w urlRoot rootCaPool h
  = (Ret certs, [EvGet (Verify rootCaPool []) (wellKnown w u)])
  <-> exists resp body der,
        http_Get w h (Verify rootCaPool []) (wellKnown w u) = Ok resp
        /\ Body resp = (body, None)
        /\ is2xx (StatusCode resp) = true
        /\ fst (base64_DecodeString w body) = Some der
        /\ pkcs7_Parse w der = Ok certs.
Proof.
  intros Hu Hne. unfold FetchCertificates, wellKnown. rewrite Hu.
  unfold bind, perform. split.
  - destruct (http_Get w h (Verify rootCaPool []) _) as [resp | e].
    2: { intros [= <-]. now contradiction Hne. }
    destruct (Body resp) as [body [e |]] eqn:Hbody.
    { intros [= <-]. now contradiction Hne. }
    destruct (is2xx (StatusCode resp)) eqn:H2xx.
    2: { intros [= <-]. now contradiction Hne. }
    destruct (fst (base64_DecodeString w body)) as [der |] eqn:Hdec.
    2: { intros [= <-]. now contradiction Hne. }
    destruct (pkcs7_Parse w der) as [parsed | e] eqn:Hparse.
    2: { intros [= <-]. now contradiction Hne. }
    intros [= <-]. now exists resp, body, der.
  - intros (resp & body & der & Hget & Hbody & H2xx & Hdec & Hparse).
    now rewrite Hget, Hbody, H2xx, Hdec, Hparse.
Qed.

Lemma FetchCertificates_certificates_iff_witness :
  FetchCertificates trailingGarbageWorld "https://ctrl.example"
    (Some [leafCert]) []
  = (Ret [caCert], [bundleFetch]).
Proof.
  apply (FetchCertificates_certificates_iff trailingGarbageWorld
           "https://ctrl.example" (Some [leafCert]) []
           {| Scheme := ""; Host := "https://ctrl.example"; Path := "" |}
           [caCert] eq_refl).
  - discriminate.
  - exists {| StatusCode := 200; Status := "200 OK";
              Body := ("PKCS7!", None); TLS := None |}, "PKCS7!", "PKCS7".
    now repeat split.
Defined.

(** ** Rejections *)

Lemma Exists_of_Search (g : Container) (hierarchy : list string) (x : json) :
  Search g hierarchy = Some x -> Exists g hierarchy = true.
Proof. unfold Exists. now intros ->. Qed.

Lemma Exists_of_no_Search (g : Container) (hierarchy : list string) :
  Search g hierarchy = None -> Exists g hierarchy = false.
Proof. unfold Exists. now intros ->. Qed.

(** X14. How the token-based strategy reports a rejection.  A body that
    cannot be read is an error whatever the status, 200 included.  With a
    status other than 200: a body that is no JSON, and a JSON body without
    [error.message], are reported with the status and the raw body; a body
    with string [error.message] and [error.code] is reported with status,
    code, message and cause, where the cause is [error.cause.message] when
    that is a string that is not empty, else the legacy
    [error.causeMessage], else empty.  The configuration is returned as it
    was given. *)
Theorem enrollOTT_rejection (w : World) token cfg caPool h resp :
  ottAnswered w token cfg caPool h resp ->
  (forall body e,
     Body resp = (body, Some e) ->
     fst (enrollOTT w token cfg caPool h)
     = Ret (cfg, Some (Fundamental ("enroll error: " +++ Status resp
                         +++ ": could not read body: " +++ body))))
  /\ (forall body,
        Body resp = (body, None) ->
        StatusCode resp <> StatusOK ->
        (forall e,
           gabs_ParseJSON w body = Err e ->
           fst (enrollOTT w token cfg caPool h)
           = Ret (cfg, Some (Fundamental ("enroll error: " +++ Status resp
                               +++ ": could not parse body: " +++ body))))
        /\ (forall object,
              gabs_ParseJSON w body = Ok object ->
              Search (Some object) ["error"; "message"] = None ->
              fst (enrollOTT w token cfg caPool h)
              = Ret (cfg, Some (Fundamental ("enroll error: " +++ Status resp
                                  +++ ": unrecognized response: " +++ body))))
        /\ (forall object message code,
              gabs_ParseJSON w body = Ok object ->
              Search (Some object) ["error"; "message"]
              = Some (JString message) ->
              Search (Some object) ["error"; "code"] = Some (JString code) ->
              let report cause :=
                Ret (cfg, Some (Fundamental ("enroll error: " +++ Status resp
                       +++ " - code: " +++ code +++ " - message: " +++ message
                       +++ " - cause: " +++ cause))) in
              let nested := Search (Some object) ["error"; "cause"; "message"] in
              let legacy := Search (Some object) ["error"; "causeMessage"] in
              (forall cause,
                 nested = Some (JString cause) -> cause <> "" ->
                 fst (enrollOTT w token cfg caPool h) = report cause)
              /\ (forall cause,
                    nested = None \/ nested = Some (JString "") ->
                    legacy = Some (JString cause) ->
                    fst (enrollOTT w token cfg caPool h) = report cause)
              /\ (nested = None \/ nested = Some (JString "") ->
                  legacy = None ->
                  fst (enrollOTT w token cfg caPool h) = report ""))).
Proof.
  intros (pk & hostname & e1 & request & e2 & csr
          & Hkey & Hhost & Hreq & Hcsr & Hpost).
  split.
  { intros body e Hbody.
    unfold enrollOTT, CreateCertificateRequest, bind, perform.
    rewrite Hkey, Hhost, Hreq. rewrite <- !app_assoc. cbn [app].
    now rewrite Hcsr, Hpost, Hbody. }
  intros body Hbody Hstatus. apply Z.eqb_neq in Hstatus.
  split; [| split].
  - intros e Hparse.
    unfold enrollOTT, CreateCertificateRequest, bind, perform.
    rewrite Hkey, Hhost, Hreq. rewrite <- !app_assoc. cbn [app].
    now rewrite Hcsr, Hpost, Hbody, Hstatus, Hparse.
  - intros object Hparse Hnone.
    unfold enrollOTT, CreateCertificateRequest, bind, perform.
    rewrite Hkey, Hhost, Hreq. rewrite <- !app_assoc. cbn [app].
    rewrite Hcsr, Hpost, Hbody, Hstatus, Hparse.
    now rewrite (Exists_of_no_Search _ _ Hnone).
  - intros object message code Hparse Hmsg Hcode report nested legacy.
    subst report nested legacy.
    split; [| split].
    + intros cause Hnested Hne.
      unfold enrollOTT, CreateCertificateRequest, bind, perform.
      rewrite Hkey, Hhost, Hreq. rewrite <- !app_assoc. cbn [app].
      rewrite Hcsr, Hpost, Hbody, Hstatus, Hparse.
      rewrite (Exists_of_Search _ _ _ Hmsg), Hmsg, Hcode.
      rewrite (Exists_of_Search _ _ _ Hnested), Hnested.
      destruct cause; [now contradiction Hne | reflexivity].
    + intros cause Hnested Hlegacy.
      unfold enrollOTT, CreateCertificateRequest, bind, perform.
      rewrite Hkey, Hhost, Hreq. rewrite <- !app_assoc. cbn [app].
      rewrite Hcsr, Hpost, Hbody, Hstatus, Hparse.
      rewrite (Exists_of_Search _ _ _ Hmsg), Hmsg, Hcode.
      rewrite (Exists_of_Search _ _ _ Hlegacy), Hlegacy.
      destruct Hnested as [Hnested | Hnested].
      * now rewrite (Exists_of_no_Search _ _ Hnested).
      * now rewrite (Exists_of_Search _ _ _ Hnested), Hnested.
    + intros Hnested Hlegacy.
      unfold enrollOTT, CreateCertificateRequest, bind, perform.
      rewrite Hkey, Hhost, Hreq. rewrite <- !app_assoc. cbn [app].
      rewrite Hcsr, Hpost, Hbody, Hstatus, Hparse.
      rewrite (Exists_of_Search _ _ _ Hmsg), Hmsg, Hcode.
      rewrite (Exists_of_no_Search _ _ Hlegacy).
      destruct Hnested as [Hnested | Hnested].
      * now rewrite (Exists_of_no_Search _ _ Hnested).
      * now rewrite (Exists_of_Search _ _ _ Hnested), Hnested.
Qed.

Lemma enrollOTT_rejection_witness :
  fst (enrollOTT (serverWorld 400 "400 Bad Request" bodyCodeMessage)
         (claimsFor "ott") keyedConfig [] [EvGenerateKey])
  = Ret (keyedConfig,
         Some (Fundamental
           ("enroll error: 400 Bad Request - code: INVALID"
            +++ " - message: bad csr - cause: "))).
Proof.
  assert (Hanswered :
    ottAnswered (serverWorld 400 "400 Bad Request" bodyCodeMessage)
      (claimsFor "ott") keyedConfig [] [EvGenerateKey]
      {| StatusCode := 400; Status := "400 Bad Request";
         Body := (bodyCodeMessage, None); TLS := None |}).
  { exists pemKey, "edge-01", None, "edge-01", None, "CSR:edge-01".
    now repeat split. }
  destruct (enrollOTT_rejection _ _ _ _ _ _ Hanswered) as [_ Hstatus].
  destruct (Hstatus bodyCodeMessage eq_refl) as (_ & _ & Hjson).
  - discriminate.
  - destruct (Hjson jsonCodeMessage "bad csr" "INVALID" eq_refl eq_refl eq_refl)
      as (_ & _ & Hbare).
    exact (Hbare (or_introl eq_refl) eq_refl).
Defined.

(** X15. How the CA-based strategy with naming reports a rejection, for a
    status other than 200 and 409: with the status alone when the body
    cannot be read; with the status and the raw body when the body is no
    JSON; with status, code and message when the body is JSON with string
    [error.code] and [error.message].  The configuration is returned as it
    was given. *)
Theorem enrollCAAuto_rejection (w : World) enFlags cfg caPool h resp :
  caAutoAnswered w enFlags cfg caPool h resp ->
  StatusCode resp <> StatusOK ->
  StatusCode resp <> StatusConflict ->
  (forall body e,
     Body resp = (body, Some e) ->
     fst (enrollCAAuto w enFlags cfg caPool h)
     = Ret (cfg, Some (Fundamental ("enroll error: " +++ Status resp))))
  /\ (forall body e,
        Body resp = (body, None) ->
        gabs_ParseJSON w body = Err e ->
        fst (enrollCAAuto w enFlags cfg caPool h)
        = Ret (cfg, Some (Fundamental ("enroll error: " +++ Status resp
                            +++ ": " +++ body))))
  /\ (forall body object code message,
        Body resp = (body, None) ->
        gabs_ParseJSON w body = Ok object ->
        SearchPath (Some object) "error.code" = Some (JString code) ->
        SearchPath (Some object) "error.message" = Some (JString message) ->
        fst (enrollCAAuto w enFlags cfg caPool h)
        = Ret (cfg, Some (Fundamental ("enroll error: " +++ Status resp
                            +++ ": " +++ code +++ ": " +++ message)))).
Proof.
  intros (clientCert & Hid & Hpost) Hok Hconflict.
  apply Z.eqb_neq in Hok, Hconflict.
  split; [| split].
  - intros body e Hbody.
    unfold enrollCAAuto, deref, bind, perform, ret.
    rewrite Hid, app_nil_r, Hpost, Hok, Hconflict, Hbody. reflexivity.
  - intros body e Hbody Hparse.
    unfold enrollCAAuto, deref, bind, perform, ret.
    rewrite Hid, app_nil_r, Hpost, Hok, Hconflict, Hbody, Hparse.
    reflexivity.
  - intros body object code message Hbody Hparse Hcode Hmessage.
    unfold enrollCAAuto, deref, bind, perform, ret.
    rewrite Hid, app_nil_r, Hpost, Hok, Hconflict, Hbody, Hparse.
    cbn [negb]. rewrite Hcode, Hmessage. reflexivity.
Qed.

Lemma enrollCAAuto_rejection_witness :
  fst (enrollCAAuto
         (serverWorld 500 "500 Internal Server Error" bodyCodeMessage)
         (flagsFor "ca" "") keyedConfig [] [EvGenerateKey])
  = Ret (keyedConfig,
         Some (Fundamental
           "enroll error: 500 Internal Server Error: INVALID: bad csr")).
Proof.
  assert (Hanswered :
    caAutoAnswered
      (serverWorld 500 "500 Internal Server Error" bodyCodeMessage)
      (flagsFor "ca" "") keyedConfig [] [EvGenerateKey]
      {| StatusCode := 500; Status := "500 Internal Server Error";
         Body := (bodyCodeMessage, None); TLS := None |}).
  { exists "CLIENT-CERT". now split. }
  refine (proj2 (proj2 (enrollCAAuto_rejection _ _ _ _ _ _ Hanswered _ _))
            bodyCodeMessage jsonCodeMessage "INVALID" "bad csr"
            eq_refl eq_refl eq_refl eq_refl); discriminate.
Defined.

(** X16. For the CA-based strategy the status of the response decides
    everything, and the body is never looked at: 200 is success, 409 is the
    already-enrolled error, any other status is an error that carries the
    status text; the already-enrolled error stands for 409 and for nothing
    else. *)
Theorem enrollCA_status_decides (w : World) token cfg caPool h resp :
  caAnswered w token cfg caPool h resp ->
  (StatusCode resp = StatusOK ->
   fst (enrollCA w token cfg caPool h) = Ret (cfg, None))
  /\ (StatusCode resp = StatusConflict ->
      fst (enrollCA w token cfg caPool h) = Ret (cfg, Some alreadyEnrolled))
  /\ (StatusCode resp <> StatusOK -> StatusCode resp <> StatusConflict ->
      fst (enrollCA w token cfg caPool h)
      = Ret (cfg, Some (Fundamental ("enroll error: " +++ Status resp))))
  /\ (fst (enrollCA w token cfg caPool h) = Ret (cfg, Some alreadyEnrolled)
      <-> StatusCode resp = StatusConflict).
Proof.
  intros (clientCert & Hid & Hpost).
  rewrite (enrollCA_by_status _ _ _ _ _ _ _ Hid Hpost).
  split; [| split; [| split]].
  - now intros ->.
  - now intros ->.
  - intros Hok Hconflict. apply Z.eqb_neq in Hok, Hconflict.
    now rewrite Hok, Hconflict.
  - rewrite <- (enrollCA_by_status _ _ _ _ _ _ _ Hid Hpost).
    now apply enrollCA_conflict_iff with (clientCert := clientCert).
Qed.

Lemma enrollCA_status_decides_witness :
  fst (enrollCA (serverWorld 409 "409 Conflict" "") (claimsFor "ottca")
         keyedConfig [] [EvGenerateKey])
  = Ret (keyedConfig, Some alreadyEnrolled).
Proof.
  assert (Hanswered :
    caAnswered (serverWorld 409 "409 Conflict" "") (claimsFor "ottca")
      keyedConfig [] [EvGenerateKey]
      {| StatusCode := 409; Status := "409 Conflict";
         Body := ("", None); TLS := None |}).
  { exists "CLIENT-CERT". now split. }
  exact (proj1 (proj2 (enrollCA_status_decides _ _ _ _ _ _ Hanswered))
           eq_refl).
Defined.

(** X17. For the CA-based strategy with naming too, the already-enrolled
    error stands for status 409 and for nothing else: no other status, and
    no body, makes the strategy return it. *)
Theorem enrollCAAuto_already_enrolled_iff (w : World) enFlags cfg caPool h
  resp :
  caAutoAnswered w enFlags cfg caPool h resp ->
  fst (enrollCAAuto w enFlags cfg caPool h) = Ret (cfg, Some alreadyEnrolled)
  <-> StatusCode resp = StatusConflict.
Proof.
  intros (clientCert & Hid & Hpost).
  now apply enrollCAAuto_conflict_iff with (clientCert := clientCert).
Qed.

Lemma enrollCAAuto_already_enrolled_iff_witness :
  fst (enrollCAAuto (serverWorld 409 "409 Conflict" "") (flagsFor "ca" "")
         keyedConfig [] [EvGenerateKey])
  = Ret (keyedConfig, Some alreadyEnrolled).
Proof.
  assert (Hanswered :
    caAutoAnswered (serverWorld 409 "409 Conflict" "") (flagsFor "ca" "")
      keyedConfig [] [EvGenerateKey]
      {| StatusCode := 409; Status := "409 Conflict";
         Body := ("", None); TLS := None |}).
  { exists "CLIENT-CERT". now split. }
  exact (proj2 (enrollCAAuto_already_enrolled_iff _ _ _ _ _ _ Hanswered)
           eq_refl).
Defined.

(** ** Parsing the token *)

(** The two ways [ValidateToken] ends on claims that are there. *)
Lemma ValidateToken_claims_cases (w : World) claims h :
  (exists c u resp rest,
     url_Parse w (Issuer claims) = Ok u
     /\ http_Get w h InsecureSkipVerify (Issuer claims) = Ok resp
     /\ TLS resp = Some (c :: rest)
     /\ ValidateToken w (Some (mkToken (EnrollmentClaimsPtr (Some claims)))) h
        = (Ret ((Some (PublicKey c), None),
                Some (mkToken (EnrollmentClaimsPtr
                                 (Some (setSignatureCert claims (Some c)))))),
           [EvGet InsecureSkipVerify (Issuer claims)]))
  \/ (exists e token' evs,
        ValidateToken w (Some (mkToken (EnrollmentClaimsPtr (Some claims)))) h
        = (Ret ((None, Some e), token'), evs)
        /\ (evs = [] \/ evs = [EvGet InsecureSkipVerify (Issuer claims)])).
Proof.
  unfold ValidateToken. cbn [Claims].
  destruct (isEmpty (Issuer claims)).
  { right. do 3 eexists. split; [reflexivity | now left]. }
  destruct (url_Parse w (Issuer claims)) as [u | e].
  2: { right. do 3 eexists. split; [reflexivity | now left]. }
  unfold bind.
  destruct (FetchServerCert_cases w (Issuer claims) h) as (r & Hrun & Hr).
  rewrite Hrun.
  destruct Hr as [(c & resp & rest & -> & Hget & Htls) | (e & -> & _)]; cbn.
  - left. now exists c, u, resp, rest.
  - right. do 3 eexists. split; [reflexivity | now right].
Qed.

(** The two ways [ParseToken] ends. *)
Lemma ParseToken_cases (lib : JwtLib) (w : World) tokenStr h :
  (exists e evs,
     ParseToken lib w tokenStr h = (Ret (None, None, Some e), evs)
     /\ (evs = []
         \/ exists decoded,
              jwt_ParseUnverified lib (TrimSpace tokenStr) = Ok decoded
              /\ evs = [EvGet InsecureSkipVerify (Issuer decoded)]))
  \/ (exists decoded cert resp rest,
        jwt_ParseUnverified lib (TrimSpace tokenStr) = Ok decoded
        /\ http_Get w h InsecureSkipVerify (Issuer decoded) = Ok resp
        /\ TLS resp = Some (cert :: rest)
        /\ ParseToken lib w tokenStr h
           = (Ret (Some (setSignatureCert decoded (Some cert)),
                   Some (mkToken (EnrollmentClaimsPtr
                           (Some (setSignatureCert decoded (Some cert))))),
                   None),
              [EvGet InsecureSkipVerify (Issuer decoded)])
        /\ validated w (setSignatureCert decoded (Some cert))
        /\ method_Verify lib (TrimSpace tokenStr) (Some (PublicKey cert)) = None
        /\ claims_Valid lib (setSignatureCert decoded (Some cert)) = None).
Proof.
  unfold ParseToken, ParseWithClaims.
  destruct (jwt_ParseUnverified lib (TrimSpace tokenStr))
    as [decoded | e] eqn:Hdecode.
  2: { left. do 2 eexists. split; [reflexivity | now left]. }
  unfold bind.
  destruct (ValidateToken_claims_cases w decoded h)
    as [(c & u & resp & rest & Hu & Hget & Htls & Hrun)
       | (e & token' & evs & Hrun & Hevs)];
    rewrite Hrun.
  2: { left. exists (OtherError (Error e)), evs. split.
       - cbn. now rewrite !app_nil_r.
       - destruct Hevs as [-> | ->]; [now left | right; now exists decoded]. }
  cbn [Claims].
  destruct (method_Verify lib (TrimSpace tokenStr) (Some (PublicKey c)))
    as [e |] eqn:Hverify.
  { left. do 2 eexists. split; [reflexivity |]. right. now exists decoded. }
  destruct (claims_Valid lib (setSignatureCert decoded (Some c)))
    as [e |] eqn:Hvalid.
  { left. do 2 eexists. split; [reflexivity |]. right. now exists decoded. }
  right. exists decoded, c, resp, rest. split; [reflexivity |].
  split; [exact Hget |]. split; [exact Htls |].
  split; [reflexivity |]. split; [| now split].
  split; [exists u; exact Hu | exists c; reflexivity].
Qed.

(** X18. [ParseToken] gives all or nothing, and never panics.  Either it
    returns an error with no claims and no token, or it returns both with no
    error; and then the claims are the ones decoded from the trimmed text,
    with [SignatureCert] set to the first certificate the issuer of those
    claims presented to the unverified GET of the issuer URL; the issuer
    parses as a URL, the signature of the trimmed text verified under the
    public key of that very certificate, and the claims were valid.  Such
    claims are what the bootstrap of [Enroll] needs. *)
Theorem ParseToken_all_or_nothing (lib : JwtLib) (w : World) tokenStr h :
  exists claims token err,
    fst (ParseToken lib w tokenStr h) = Ret (claims, token, err)
    /\ (err <> None -> claims = None /\ token = None)
    /\ (err = None ->
        exists decoded cert resp rest,
          jwt_ParseUnverified lib (TrimSpace tokenStr) = Ok decoded
          /\ http_Get w h InsecureSkipVerify (Issuer decoded) = Ok resp
          /\ TLS resp = Some (cert :: rest)
          /\ snd (ParseToken lib w tokenStr h)
             = [EvGet InsecureSkipVerify (Issuer decoded)]
          /\ claims = Some (setSignatureCert decoded (Some cert))
          /\ SignatureCert (setSignatureCert decoded (Some cert)) = Some cert
          /\ token = Some (mkToken (EnrollmentClaimsPtr claims))
          /\ validated w (setSignatureCert decoded (Some cert))
          /\ method_Verify lib (TrimSpace tokenStr) (Some (PublicKey cert))
             = None
          /\ claims_Valid lib (setSignatureCert decoded (Some cert)) = None).
Proof.
  destruct (ParseToken_cases lib w tokenStr h)
    as [(e & evs & Hrun & _)
       | (decoded & cert & resp & rest & Hdecode & Hget & Htls & Hrun & Hv
          & Hsig & Hvalid)];
    rewrite Hrun; cbn [fst snd]; do 3 eexists; (split; [reflexivity |]).
  - split; [now intros _ | discriminate].
  - split; [intros Hn; now contradiction Hn |]. intros _.
    exists decoded, cert, resp, rest.
    split; [exact Hdecode |]. split; [exact Hget |]. split; [exact Htls |].
    split; [reflexivity |]. split; [reflexivity |]. split; [reflexivity |].
    split; [reflexivity |]. split; [exact Hv |]. split; assumption.
Qed.

(** X19. [ParseToken] contacts the issuer at most once and nobody else.
    A text that does not decode is refused with nothing performed; otherwise
    the only event there can be is the one unverified GET of the issuer
    named in the decoded claims. *)
Theorem ParseToken_contacts_issuer_only (lib : JwtLib) (w : World) tokenStr h :
  snd (ParseToken lib w tokenStr h) = []
  \/ exists decoded,
       jwt_ParseUnverified lib (TrimSpace tokenStr) = Ok decoded
       /\ snd (ParseToken lib w tokenStr h)
          = [EvGet InsecureSkipVerify (Issuer decoded)].
Proof.
  destruct (ParseToken_cases lib w tokenStr h)
    as [(e & evs & Hrun & Hevs)
       | (decoded & cert & resp & rest & Hdecode & _ & _ & Hrun & _)];
    rewrite Hrun; cbn [snd].
  - exact Hevs.
  - right. now exists decoded.
Qed.

(** The token text of [labJwt], padded with white space, against an issuer
    that presents the leaf certificate. *)
Example ParseToken_padded :
  fst (ParseToken labJwt issuerWorld "  hdr.claims.sig " [])
  = Ret (Some (claimsFor "ott"),
         Some (mkToken (EnrollmentClaimsPtr (Some (claimsFor "ott")))), None).
Proof. reflexivity. Qed.

(** A signature that does not verify under the fetched key: no claims. *)
Example ParseToken_wrong_signer :
  ParseToken labJwt
    (labWorld goodKey
       (fun _ => Ok {| StatusCode := 200; Status := "200 OK";
                       Body := ("", None); TLS := Some [caCert] |})
       (fun _ => refused))
    "hdr.claims.sig" []
  = (Ret (None, None, Some (OtherError "crypto/ecdsa: verification error")),
     [EvGet InsecureSkipVerify "https://ctrl.example"]).
Proof. reflexivity. Qed.
